(** * Global steel plants dashboard: model and verified properties

    A shallow embedding of [dashboard.py]: the loader
    [load_and_clean_data], the three filters, the KPI aggregates, the map
    styling, and the script that strings them together and talks to the
    page.

    Conventions.
    - A [float64] cell is [option Q]: [None] is NaN (what pandas calls
      null in a numeric column), [Some q] is the number [q].  Arithmetic
      is exact; binary rounding error and infinities are outside the model.
    - A cell of a text column is [option string]: [None] is a missing
      cell, a cell that is present holds text.
    - A data frame is the list of its rows in order, each with its index
      label; [read_csv] labels the rows 0, 1, 2, ... and the filters keep
      the labels.
    - The numeric parser behind [pd.to_numeric] is a parameter
      [to_numeric : string -> option Q] of the loader.
    - The file has all the columns the script names, except perhaps
      'Region', the one column the script asks for with [get]; a flag
      [has_region] of the run says whether it is there.
    - A run of the script is the list of the calls it makes to the page,
      in order, and the way it ends: to the end, at [st.stop()], or with
      an exception nobody catches. *)

From Stdlib Require Import QArith Qround Qminmax Qabs Lqa ZArith List String Ascii Bool Lia.
From Stdlib Require Import Sorting.Sorted.
From stdpp Require Import gmap strings.
Import ListNotations.

Local Open Scope string_scope.

(** ** Column names *)

Definition COL_PLANT_NAME : string := "Plant name (English)_x".
Definition COL_OWNER : string := "Owner".
Definition COL_COUNTRY : string := "Country/Area_x".
Definition COL_CAPACITY_TTPA : string := "Nominal crude steel capacity (ttpa)".
Definition COL_COORDINATES : string := "Coordinates".

Definition COL_CAPACITY_MTPA : string := "Capacity_Mtpa".
Definition COL_LATITUDE : string := "lat".
Definition COL_LONGITUDE : string := "Longitude".

(** ** Numeric cells *)

Definition float64 : Type := option Q.

Definition nan : float64 := None.

Definition isnull (x : float64) : bool :=
  match x with
  | None => true
  | Some _ => false
  end.

Definition notna (x : float64) : bool := negb (isnull x).

(** [series / k] on one cell: NaN stays NaN. *)
Definition truediv (x : float64) (k : Q) : float64 :=
  option_map (fun q => (q / k)%Q) x.

(** [series.mul(k)] on one cell. *)
Definition mul (x : float64) (k : Q) : float64 :=
  option_map (fun q => (q * k)%Q) x.

(** [series >= k] and [series <= k] on one cell: a comparison with NaN is
    false. *)
Definition ge (x : float64) (k : Q) : bool :=
  match x with
  | Some q => Qle_bool k q
  | None => false
  end.

Definition le (x : float64) (k : Q) : bool :=
  match x with
  | Some q => Qle_bool q k
  | None => false
  end.

(** [series.dropna()]: the numbers of a column, in order. *)
Fixpoint dropna (col : list float64) : list Q :=
  match col with
  | [] => []
  | Some q :: rest => q :: dropna rest
  | None :: rest => dropna rest
  end.

Definition Qsum (l : list Q) : Q := fold_right Qplus 0%Q l.

(** [series.sum()]: NaN cells are skipped; the sum of nothing is 0. *)
Definition series_sum (col : list float64) : Q := Qsum (dropna col).

(** [series.mean()]: the mean of the non-NaN cells, NaN when there is
    none. *)
Definition series_mean (col : list float64) : float64 :=
  match dropna col with
  | [] => nan
  | q :: rest =>
      Some (Qsum (q :: rest) / inject_Z (Z.of_nat (length (q :: rest))))%Q
  end.

(** [np.rint]: nearest integer, a tie goes to the even neighbour. *)
Definition rint (x : Q) : Z :=
  let f := Qfloor x in
  match ((x - inject_Z f) ?= 1 # 2)%Q with
  | Lt => f
  | Gt => (f + 1)%Z
  | Eq => if Z.even f then f else (f + 1)%Z
  end.

(** [x.round(2)]: scale by 100, round to an integer, scale back. *)
Definition round2 (x : Q) : Q := (inject_Z (rint (x * 100)) / 100)%Q.

(** [series.clip(lower, upper)] on one number: both tests look at the
    original value, the lower bound is applied first. *)
Definition clip (lower upper : Q) (x : Q) : Q :=
  let r := if Qle_bool lower x then x else lower in
  if Qle_bool x upper then r else upper.

(** ** Strings *)

(** [s.split(sep)] for a non-empty [sep]: cut at every occurrence of
    [sep], scanning from the left; [skip] counts the characters of a
    matched separator still to pass over. *)
Fixpoint split_from (sep : string) (skip : nat) (s : string) : list string :=
  match s with
  | EmptyString => [EmptyString]
  | String c rest =>
      match skip with
      | S k => split_from sep k rest
      | O =>
          if String.prefix sep s
          then EmptyString :: split_from sep (String.length sep - 1) rest
          else
            match split_from sep 0 rest with
            | p :: ps => String c p :: ps
            | [] => [String c EmptyString]
            end
      end
  end.

Definition str_split (sep s : string) : list string := split_from sep 0 s.

(** One cell of [series.str.split(sep, expand=True)] before padding: the
    parts of a string, a single NaN for a missing cell. *)
Definition split_cell (sep : string) (c : option string) : list (option string) :=
  match c with
  | Some s => map Some (str_split sep s)
  | None => [None]
  end.

(** The number of columns of the expanded frame: the longest row. *)
Definition expand_width (parts : list (list (option string))) : nat :=
  list_max (map (@length (option string)) parts).

(** Shorter rows are filled up with missing cells. *)
Definition pad (w : nat) (l : list (option string)) : list (option string) :=
  l ++ repeat None (w - length l).

Definition str_split_expand (sep : string) (col : list (option string))
  : nat * list (list (option string)) :=
  let parts := map (split_cell sep) col in
  let w := expand_width parts in
  (w, map (pad w) parts).

(** [series.str] exists on a column that holds text.  [read_csv] reads a
    column in which every cell is missing as numbers (all NaN); the columns
    of a file without lines are text. *)
Definition holds_text (col : list (option string)) : bool :=
  match col with
  | [] => true
  | _ :: _ => existsb (fun c => match c with Some _ => true | None => false end) col
  end.

(** Column [j] of an expanded row. *)
Definition cell_at (j : nat) (r : list (option string)) : option string :=
  nth j r None.

(** ** Exceptions *)

Inductive exn : Type :=
| FileNotFoundError
| ValueError (msg : string)
| AttributeError (msg : string)
| KeyError (msg : string).

Inductive result (A : Type) : Type :=
| Ok (a : A)
| Raise (e : exn).

Arguments Ok {A} a.
Arguments Raise {A} e.

(** ** The table *)

(** One line of [steel_plants.csv] as [read_csv] hands it over.  The
    capacity is kept as its text: [to_numeric] decides what it is worth. *)
Record plant : Type := mkPlant {
  plant_name : string;            (* COL_PLANT_NAME *)
  owner : string;                 (* COL_OWNER *)
  country : string;               (* COL_COUNTRY *)
  region : option string;         (* 'Region' *)
  status : string;                (* 'Status' *)
  capacity_ttpa : option string;  (* COL_CAPACITY_TTPA *)
  start_date : string;            (* 'Start date_x' *)
  equipment : string;             (* 'Main production equipment' *)
  coordinates : option string     (* COL_COORDINATES *)
}.

(** A row of the cleaned frame: the source line and the three derived
    columns. *)
Record row : Type := mkRow {
  src : plant;
  Capacity_Mtpa : float64;        (* COL_CAPACITY_MTPA *)
  lat : float64;                  (* COL_LATITUDE *)
  Longitude : float64             (* COL_LONGITUDE *)
}.

Definition frame : Type := list (nat * row).

Definition DATA_FILE : string := "steel_plants.csv".

(** A file system: what [read_csv] finds at a path, if anything. *)
Definition filesystem : Type := string -> option (list plant).

Section Loader.

(** [pd.to_numeric(_, errors='coerce')] on one string: [None] when the
    string is not a number. *)
Variable to_numeric : string -> option Q.

Definition to_numeric_cell (c : option string) : float64 :=
  match c with
  | Some s => to_numeric s
  | None => nan
  end.

(** The row built from line [p] and its expanded coordinate cells. *)
Definition derive (p : plant) (coord : list (option string)) : row :=
  {| src := p;
     Capacity_Mtpa := truediv (to_numeric_cell (capacity_ttpa p)) 1000;
     lat := to_numeric_cell (cell_at 0 coord);
     Longitude := to_numeric_cell (cell_at 1 coord) |}.

(** [df.dropna(subset=[lat, Longitude])]. *)
Definition has_coordinates (ir : nat * row) : bool :=
  notna (lat (snd ir)) && notna (Longitude (snd ir)).

Definition load_and_clean_data (fs : filesystem) (file_path : string)
  : result frame :=
  match fs file_path with
  | None => Raise FileNotFoundError
  | Some plants =>
      if holds_text (map coordinates plants)
      then
        let '(w, coords) := str_split_expand ", " (map coordinates plants) in
        (* df[[lat, Longitude]] = ...: two keys need two columns *)
        if Nat.eqb w 2
        then
          let rows :=
            map (fun pc => derive (fst pc) (snd pc)) (combine plants coords) in
          let df := combine (seq 0 (length rows)) rows in
          Ok (List.filter has_coordinates df)
        else Raise (ValueError "Columns must be same length as key")
      else Raise (AttributeError "Can only use .str accessor with string values!")
  end.

(** *** The loader line by line

    What the loader does to one line does not depend on the other lines,
    once the coordinate column has expanded to two columns. *)

(** Part [j] of the coordinate string of [p]: missing when the cell is
    missing or the string has no such part. *)
Definition coordinate_part (j : nat) (p : plant) : option string :=
  cell_at j (split_cell ", " (coordinates p)).

(** The row the loader makes of line [p], whatever the other lines are. *)
Definition clean_row (p : plant) : row :=
  {| src := p;
     Capacity_Mtpa := truediv (to_numeric_cell (capacity_ttpa p)) 1000;
     lat := to_numeric_cell (coordinate_part 0 p);
     Longitude := to_numeric_cell (coordinate_part 1 p) |}.

(** The width the coordinate column expands to. *)
Definition coordinate_width (plants : list plant) : nat :=
  expand_width (map (split_cell ", ") (map coordinates plants)).

End Loader.

(** ** The filters *)

(** [series.isin(values)] on one cell. *)
Definition isin (values : list string) (x : string) : bool :=
  existsb (String.eqb x) values.

(** [if selected: df = df[df[col].isin(selected)]]: an empty list is
    falsy, the frame is then left alone. *)
Definition filter_isin (col : plant -> string) (selected : list string)
  (df : frame) : frame :=
  match selected with
  | [] => df
  | _ :: _ => List.filter (fun ir => isin selected (col (src (snd ir)))) df
  end.

(** The capacity mask of one row:
    [isnull() | ((c >= range[0]) & (c <= range[1]))]. *)
Definition capacity_mask (capacity_range : Q * Q) (r : row) : bool :=
  isnull (Capacity_Mtpa r)
  || (ge (Capacity_Mtpa r) (fst capacity_range)
      && le (Capacity_Mtpa r) (snd capacity_range)).

Definition filter_capacity (capacity_range : Q * Q) (df : frame) : frame :=
  List.filter (fun ir => capacity_mask capacity_range (snd ir)) df.

Definition apply_filters (selected_companies selected_countries : list string)
  (capacity_range : Q * Q) (df : frame) : frame :=
  filter_capacity capacity_range
    (filter_isin country selected_countries
       (filter_isin owner selected_companies df)).

(** ** KPIs *)

Definition capacity_column (df : frame) : list float64 :=
  map (fun ir => Capacity_Mtpa (snd ir)) df.

Definition total_plants (df : frame) : nat := length df.

Definition total_capacity (df : frame) : Q :=
  round2 (series_sum (capacity_column df)).

Definition avg_capacity (df : frame) : float64 :=
  if Nat.ltb 0 (total_plants df)
  then option_map round2 (series_mean (capacity_column df))
  else Some 0%Q.

(** [series.unique()]: the distinct values, first occurrence first. *)
Fixpoint unique (l : list string) : list string :=
  match l with
  | [] => []
  | x :: rest => x :: List.filter (fun y => negb (String.eqb x y)) (unique rest)
  end.

(** [series.nunique()]. *)
Definition nunique (l : list string) : nat := length (unique l).

Definition unique_countries (df : frame) : nat :=
  nunique (map (fun ir => country (src (snd ir))) df).

(** ** Map styling *)

(** A point of the scatter layer: the row with its two styling columns. *)
Record marker : Type := mkMarker {
  point : row;
  radius : float64;
  color : list Z
}.

(** The [region_colors] dictionary; the key for Central & South America
    ends in a space, as in the script. *)
Definition region_colors : gmap string (list Z) :=
  list_to_map
    [ ("Asia Pacific", [250; 0; 0; 160]%Z);
      ("Europe", [0; 128; 255; 160]%Z);
      ("Africa", [0; 200; 0; 160]%Z);
      ("North America", [255; 165; 0; 160]%Z);
      ("Middle East", [255; 220; 0; 160]%Z);
      ("Central & South America ", [160; 32; 240; 160]%Z);
      ("Eurasia", [255; 105; 180; 160]%Z) ].

(** [series.map(d)] on one cell: a missing cell and an unknown key both
    give NaN. *)
Definition series_map (d : gmap string (list Z)) (cell : option string)
  : option (list Z) :=
  match cell with
  | Some s => d !! s
  | None => None
  end.

(** [lambda x: x if isinstance(x, list) else [128, 128, 128, 160]]. *)
Definition list_or_gray (x : option (list Z)) : list Z :=
  match x with
  | Some c => c
  | None => [128; 128; 128; 160]%Z
  end.

Definition marker_color (reg : option string) : list Z :=
  list_or_gray (series_map region_colors reg).

(** [capacity.mul(20000).clip(lower=5000, upper=80000)] on one cell. *)
Definition marker_radius (capacity : float64) : float64 :=
  option_map (clip 5000 80000) (mul capacity 20000).

(** [dropna(subset=['lat', 'lon', Capacity_Mtpa])]. *)
Definition plottable (ir : nat * row) : bool :=
  notna (lat (snd ir)) && notna (Longitude (snd ir))
  && notna (Capacity_Mtpa (snd ir)).

Definition map_data (df_filtered : frame) : frame :=
  List.filter plottable df_filtered.

Definition style (ir : nat * row) : nat * marker :=
  (fst ir,
   {| point := snd ir;
      radius := marker_radius (Capacity_Mtpa (snd ir));
      color := marker_color (region (src (snd ir))) |}).

Definition styled (df_filtered : frame) : list (nat * marker) :=
  map style (map_data df_filtered).

(** ** The page *)

Inductive metric_value : Type :=
| Count (n : nat)
| Amount (x : float64).

(** The columns of [table_cols], in order. *)
Record display_row : Type := mkDisplay {
  d_plant_name : string;
  d_owner : string;
  d_country : string;
  d_region : option string;
  d_status : string;
  d_capacity_ttpa : option string;
  d_capacity_mtpa : float64;
  d_start_date : string;
  d_equipment : string;
  d_coordinates : option string
}.

Definition display (r : row) : display_row :=
  {| d_plant_name := plant_name (src r);
     d_owner := owner (src r);
     d_country := country (src r);
     d_region := region (src r);
     d_status := status (src r);
     d_capacity_ttpa := capacity_ttpa (src r);
     d_capacity_mtpa := Capacity_Mtpa r;
     d_start_date := start_date (src r);
     d_equipment := equipment (src r);
     d_coordinates := coordinates (src r) |}.

(** What [pdk.Deck] is given: the layer's data and the initial view. *)
Record deck : Type := mkDeck {
  layer_data : list (nat * marker);
  view_latitude : Q;
  view_longitude : Q
}.

(** What the script puts on the page, call by call. *)
Inductive ui_event : Type :=
| StSetPageConfig (page_title : string)
| StError (msg : string)
| StWarning (msg : string)
| StTitle (text : string)
| StHeader (text : string)
| StMarkdown (text : string)
| StMetric (label : string) (value : metric_value)
| StPydeckChart (d : deck)
| StDataframe (rows : list display_row)
| SidebarHeader (text : string)
| SidebarMultiselect (label : string) (options default : list string)
| SidebarSlider (label : string) (min_value max_value : Q)
| SidebarWarning (msg : string)
| SidebarMarkdown (text : string)
| SidebarCaption (text : string).

(** How a run ends early: [st.stop()] or an exception nobody catches. *)
Inductive halt : Type :=
| Stopped
| Uncaught (e : exn).

(** A script step: the events it emitted, then either a halt or a value. *)
Definition script (A : Type) : Type := (list ui_event * (halt + A))%type.

Definition ret {A : Type} (a : A) : script A := ([], inr a).

Definition bind {A B : Type} (m : script A) (k : A -> script B) : script B :=
  match m with
  | (out, inl h) => (out, inl h)
  | (out, inr a) => let '(out', r) := k a in ((out ++ out')%list, r)
  end.

Definition emit (e : ui_event) : script unit := ([e], inr tt).

Definition st_stop {A : Type} : script A := ([], inl Stopped).

Definition raise {A : Type} (e : exn) : script A := ([], inl (Uncaught e)).

Declare Scope script_scope.
Delimit Scope script_scope with script.
Notation "x <- m ;; k" := (bind m (fun x => k))
  (at level 100, m at next level, k at level 200, right associativity)
  : script_scope.
Notation "m ;; k" := (bind m (fun _ => k))
  (at level 100, k at level 200, right associativity) : script_scope.
Local Open Scope script_scope.

Definition events {A : Type} (m : script A) : list ui_event := fst m.

Definition outcome {A : Type} (m : script A) : halt + A := snd m.

(** [sorted(values)] on strings. *)
Fixpoint insert_sorted (x : string) (l : list string) : list string :=
  match l with
  | [] => [x]
  | y :: rest => if String.leb x y then x :: l else y :: insert_sorted x rest
  end.

Definition sorted (l : list string) : list string :=
  fold_right insert_sorted [] l.

Definition Qlist_min (q : Q) (l : list Q) : Q := fold_left Qmin l q.
Definition Qlist_max (q : Q) (l : list Q) : Q := fold_left Qmax l q.

Definition mean_or_zero (col : list float64) : Q :=
  match series_mean col with
  | Some m => m
  | None => 0%Q
  end.

(** What the visitor has chosen in the three sidebar widgets. *)
Record inputs : Type := mkInputs {
  selected_companies : list string;
  selected_countries : list string;
  slider_value : Q * Q
}.

(** The sidebar: the two multiselects and the slider; the value is the
    capacity range the filters use. *)
Definition sidebar (df : frame) (ui : inputs) : script (Q * Q) :=
  emit (SidebarHeader "⚙️ Data Filters") ;;
  let all_companies := sorted (unique (map (fun ir => owner (src (snd ir))) df)) in
  emit (SidebarMultiselect ("Select Company (" ++ COL_OWNER ++ ")") all_companies
          (firstn 10 all_companies)) ;;
  let all_countries := sorted (unique (map (fun ir => country (src (snd ir))) df)) in
  emit (SidebarMultiselect ("Select Country (" ++ COL_COUNTRY ++ ")") all_countries
          all_countries) ;;
  match dropna (capacity_column df) with
  | q :: rest =>
      emit (SidebarSlider "Crude Steel Capacity Range (Mtpa)"
              (round2 (Qlist_min q rest)) (round2 (Qlist_max q rest))) ;;
      ret (slider_value ui)
  | [] =>
      emit (SidebarWarning "No valid capacity data available.") ;;
      ret (0%Q, 0%Q)
  end.

(** The KPI block. *)
Definition kpis (df_filtered : frame) : script unit :=
  emit (StHeader "📊 Key Performance Indicators (KPIs)") ;;
  emit (StMetric "Total Plants (Filtered)" (Count (total_plants df_filtered))) ;;
  emit (StMetric "Total Capacity (Mtpa)"
          (Amount (Some (total_capacity df_filtered)))) ;;
  emit (StMetric "Avg. Plant Capacity (Mtpa)"
          (Amount (avg_capacity df_filtered))) ;;
  emit (StMetric ("Countries (" ++ COL_COUNTRY ++ ")")
          (Count (unique_countries df_filtered))) ;;
  emit (StMarkdown "---").

(** The map block.  [has_region] says whether the file has a 'Region'
    column: without it [map_data.get] yields the string "Unknown", which
    has no [map] method. *)
Definition plant_map (has_region : bool) (df_filtered : frame) : script unit :=
  emit (StHeader "📍 Plant Locations Map") ;;
  emit (StMarkdown "The map visualizes the geographic distribution of the filtered plants. Larger circles indicate higher steel capacity (Mtpa). Colors indicate the region of each factory.") ;;
  match map_data df_filtered with
  | _ :: _ =>
      if has_region
      then
        emit (StPydeckChart
                {| layer_data := styled df_filtered;
                   view_latitude :=
                     mean_or_zero (map (fun ir => lat (snd ir)) (map_data df_filtered));
                   view_longitude :=
                     mean_or_zero (map (fun ir => Longitude (snd ir)) (map_data df_filtered)) |})
      else raise (AttributeError "'str' object has no attribute 'map'")
  | [] =>
      emit (StWarning "No plants with valid capacity and coordinates to display on the map.")
  end ;;
  emit (StMarkdown "---").

(** The table block: [df_filtered[table_cols]] needs every listed column. *)
Definition data_table (has_region : bool) (df_filtered : frame) : script unit :=
  emit (StHeader "📋 Detailed Data Table") ;;
  (if has_region
   then emit (StDataframe (map (fun ir => display (snd ir)) df_filtered))
   else raise (KeyError "['Region'] not in index")) ;;
  emit (StMarkdown "---").

Definition footer : script unit :=
  emit (SidebarMarkdown "---") ;;
  emit (SidebarCaption "💡 **Notes:**") ;;
  emit (SidebarMarkdown "
    * *Data Source: Global Steel Plants Dataset (`steel_plants.csv`).*
    * *Filtering uses the original column names (e.g., 'Owner' and 'Country/Area_x').*
    * *Capacity metrics are calculated using a derived column **Capacity_Mtpa** (Nominal crude steel capacity in Mtpa) for consistency, but the original **Nominal crude steel capacity (ttpa)** column is shown in the table.*
    ").

(** The message for an empty selection. *)
Definition NO_MATCH : string :=
  "No steel plants match the selected filters. Please adjust your selections.".

(** Everything from "apply filters" on, for a loaded frame and a capacity
    range. *)
Definition render (has_region : bool) (df : frame)
  (companies countries : list string) (capacity_range : Q * Q) : script unit :=
  let df_filtered := apply_filters companies countries capacity_range df in
  match df_filtered with
  | [] =>
      emit (StError NO_MATCH) ;;
      st_stop
  | _ :: _ =>
      kpis df_filtered ;;
      plant_map has_region df_filtered ;;
      data_table has_region df_filtered ;;
      footer
  end.

Section Script.

Variable to_numeric : string -> option Q.

(** The [try]/[except FileNotFoundError] around the load. *)
Definition load_or_stop (fs : filesystem) : script frame :=
  match load_and_clean_data to_numeric fs DATA_FILE with
  | Ok df => ret df
  | Raise FileNotFoundError =>
      emit (StError ("Error: The data file '" ++ DATA_FILE
                     ++ "' was not found. Please ensure it is uploaded.")) ;;
      st_stop
  | Raise e => raise e
  end.

(** One run of the script. *)
Definition dashboard (fs : filesystem) (has_region : bool) (ui : inputs)
  : script unit :=
  emit (StSetPageConfig "Global Steel Plants Dashboard") ;;
  df <- load_or_stop fs ;;
  emit (StTitle "🏭 Global Steel Production Portfolio") ;;
  emit (StMarkdown "
An interactive dashboard displaying global steel plant assets, focusing on capacity, location, and ownership.
Data columns used are the **original names** from the dataset.
") ;;
  emit (StMarkdown "---") ;;
  capacity_range <- sidebar df ui ;;
  render has_region df (selected_companies ui) (selected_countries ui)
    capacity_range.

End Script.

(** ** A decimal parser

    A small instance of [to_numeric] for running the loader on concrete
    tables: an optional minus sign, digits, an optional fraction. *)

Definition digit_value (c : ascii) : option Z :=
  let n := nat_of_ascii c in
  if Nat.leb 48 n && Nat.leb n 57 then Some (Z.of_nat (n - 48)) else None.

Fixpoint digits_value (acc : Z) (s : string) : option Z :=
  match s with
  | EmptyString => Some acc
  | String c rest =>
      match digit_value c with
      | Some d => digits_value (10 * acc + d) rest
      | None => None
      end
  end.

Definition unsigned_decimal (s : string) : option Q :=
  match str_split "." s with
  | [a] =>
      if String.eqb a "" then None else option_map inject_Z (digits_value 0 a)
  | [a; b] =>
      if String.eqb (a ++ b) "" then None
      else option_map (fun n => Qmake n (Pos.pow 10 (Pos.of_nat (String.length b))))
             (if String.eqb b "" then None else digits_value 0 (a ++ b))
  | _ => None
  end.

Definition decimal (s : string) : option Q :=
  match s with
  | String "-" rest => option_map Qopp (unsigned_decimal rest)
  | _ => unsigned_decimal s
  end.

(** ** Sample tables

    Five lines in the shape of [steel_plants.csv]: line 1 has an unknown
    capacity, line 2 a coordinate string that is not a pair. *)

Definition sample_plants : list plant :=
  [ mkPlant "El Hadjar" "Sider" "Algeria" (Some "Africa") "operating"
      (Some "1500") "1969" "BF; BOF" (Some "36.7539610, 6.2444200");
    mkPlant "Dunkerque" "ArcelorMittal" "France" (Some "Europe") "operating"
      (Some "unknown") "1963" "BF; BOF" (Some "51.0333, 2.3000");
    mkPlant "Lost works" "Sider" "Algeria" (Some "Africa") "closed"
      (Some "2000") "1950" "EAF" (Some "bad");
    mkPlant "Cubatao" "Usiminas" "Brazil" (Some "Central & South America")
      "operating" (Some "10000") "1963" "BF; BOF" (Some "-23.8700, -46.4200");
    mkPlant "Pilot mill" "Sider" "Japan" None "operating"
      (Some "0.1") "2020" "EAF" (Some "35.0, 139.0") ].

Definition on_disk (plants : list plant) : filesystem :=
  fun path => if String.eqb path DATA_FILE then Some plants else None.

(** The cleaned sample, as the loader with the decimal parser returns it. *)
Definition sample_df : frame :=
  match load_and_clean_data decimal (on_disk sample_plants) DATA_FILE with
  | Ok df => df
  | Raise _ => []
  end.

(** Line [i] of the sample, cleaned. *)
Definition sample_row (i : nat) : row :=
  clean_row decimal
    (nth i sample_plants (mkPlant "" "" "" None "" None "" "" None)).

(** The chart of the sample with nothing filtered out. *)
Definition sample_deck : deck :=
  {| layer_data := styled sample_df;
     view_latitude :=
       mean_or_zero (map (fun ir => lat (snd ir)) (map_data sample_df));
     view_longitude :=
       mean_or_zero (map (fun ir => Longitude (snd ir)) (map_data sample_df)) |}.

(** A table in which one coordinate string has a third part. *)
Definition three_part_plants : list plant :=
  [ mkPlant "El Hadjar" "Sider" "Algeria" (Some "Africa") "operating"
      (Some "1500") "1969" "BF; BOF" (Some "36.7539610, 6.2444200");
    mkPlant "Dunkerque" "ArcelorMittal" "France" (Some "Europe") "operating"
      (Some "6750") "1963" "BF; BOF" (Some "51.0333, 2.3000, 12.0") ].

(** A table whose only coordinate string has a single part. *)
Definition single_part_plants : list plant :=
  [ mkPlant "Lost works" "Sider" "Algeria" (Some "Africa") "closed"
      (Some "2000") "1950" "EAF" (Some "bad") ].

(** A filtered subset with the capacities 1.0, 2.0, NaN and 3.0. *)
Definition kpi_frame : frame :=
  [ (0, mkRow (mkPlant "P0" "O1" "Algeria" None "operating" (Some "1000")
                 "1990" "EAF" (Some "1.0, 1.0"))
          (Some 1%Q) (Some 1%Q) (Some 1%Q));
    (1, mkRow (mkPlant "P1" "O1" "France" None "operating" (Some "2000")
                 "1990" "EAF" (Some "2.0, 2.0"))
          (Some 2%Q) (Some 2%Q) (Some 2%Q));
    (2, mkRow (mkPlant "P2" "O2" "Algeria" None "operating" (Some "unknown")
                 "1990" "EAF" (Some "3.0, 3.0"))
          nan (Some 3%Q) (Some 3%Q));
    (3, mkRow (mkPlant "P3" "O2" "Japan" None "operating" (Some "3000")
                 "1990" "EAF" (Some "4.0, 4.0"))
          (Some 3%Q) (Some 4%Q) (Some 4%Q)) ].

(** ** Vocabulary of the specification *)

(** [y] is [x] rounded to two decimals: a whole number of hundredths, at
    most half a hundredth away from [x]. *)
Definition rounded_to_2_decimals (x y : Q) : Prop :=
  (exists n : Z, y == inject_Z n / 100)%Q /\ (Qabs (y - x) <= 1 # 200)%Q.

(** The capacities of a frame that are not null, row by row. *)
Definition non_null_capacities (df : frame) : list Q :=
  flat_map (fun ir => match Capacity_Mtpa (snd ir) with
                      | Some q => [q]
                      | None => []
                      end) df.

(** The arithmetic mean of a list of numbers. *)
Definition Qmean (l : list Q) : Q :=
  (Qsum l / inject_Z (Z.of_nat (length l)))%Q.

(** [clamp x lo hi]: [x] brought into the interval from [lo] to [hi]. *)
Definition clamp (x lo hi : Q) : Q := Qmax lo (Qmin x hi).

(** The events that show a view of the data: a metric, the map, the
    table. *)
Definition is_view_event (e : ui_event) : bool :=
  match e with
  | StMetric _ _ | StPydeckChart _ | StDataframe _ => true
  | _ => false
  end.

(** The colour a region not in the palette gets. *)
Definition gray : list Z := [128; 128; 128; 160]%Z.

Definition purple : list Z := [160; 32; 240; 160]%Z.

(** [sep.join(parts)]. *)
Fixpoint join (sep : string) (parts : list string) : string :=
  match parts with
  | [] => EmptyString
  | [p] => p
  | p :: rest => p ++ sep ++ join sep rest
  end.

(** Line [p] has two coordinate parts that are numbers. *)
Definition locatable (to_numeric : string -> option Q) (p : plant) : bool :=
  notna (to_numeric_cell to_numeric (coordinate_part 0 p))
  && notna (to_numeric_cell to_numeric (coordinate_part 1 p)).

(** The one test the three filters amount to. *)
Definition passes (companies countries : list string) (capacity_range : Q * Q)
  (r : row) : bool :=
  match companies with [] => true | _ :: _ => isin companies (owner (src r)) end
  && match countries with [] => true | _ :: _ => isin countries (country (src r)) end
  && capacity_mask capacity_range r.

(** The order of [sorted]: [a <= b] on strings. *)
Definition str_le (a b : string) : Prop := String.leb a b = true.

(** The text of the two messages of the map and the loader. *)
Definition NOTHING_TO_PLOT : string :=
  "No plants with valid capacity and coordinates to display on the map.".

Definition NOT_FOUND : string :=
  "Error: The data file 'steel_plants.csv' was not found. Please ensure it is uploaded.".


(** * Properties *)

(** ** Lists and frames *)

Lemma in_combine_seq {A : Type} (l : list A) (s i : nat) (x : A) :
  In (i, x) (combine (seq s (length l)) l) <->
  s <= i /\ nth_error l (i - s) = Some x.
Proof.
  revert s. induction l as [|y l IH]; intros s; simpl.
  - split; [tauto|]. intros [_ H]. destruct (i - s); discriminate.
  - rewrite IH. split.
    + intros [H | [Hle H]].
      * inversion H; subst. split; [lia|]. now rewrite Nat.sub_diag.
      * split; [lia|]. replace (i - s) with (S (i - S s)) by lia. exact H.
    + intros [Hle H]. destruct (Nat.eq_dec s i) as [->|Hne].
      * left. rewrite Nat.sub_diag in H. simpl in H. congruence.
      * right. split; [lia|].
        replace (i - s) with (S (i - S s)) in H by lia. exact H.
Qed.

Lemma in_indexed {A : Type} (l : list A) (i : nat) (x : A) :
  In (i, x) (combine (seq 0 (length l)) l) <-> nth_error l i = Some x.
Proof.
  rewrite in_combine_seq, Nat.sub_0_r. split; [tauto|]. split; [lia|assumption].
Qed.

Lemma map_combine_map {A B C : Type} (f : A -> B -> C) (g : A -> B) (l : list A) :
  map (fun ab => f (fst ab) (snd ab)) (combine l (map g l)) =
  map (fun a => f a (g a)) l.
Proof. induction l as [|a l IH]; simpl; [reflexivity|]. now rewrite IH. Qed.

Lemma cell_at_pad (w j : nat) (l : list (option string)) :
  cell_at j (pad w l) = cell_at j l.
Proof.
  unfold cell_at, pad. destruct (Nat.lt_ge_cases j (length l)) as [Hlt | Hge].
  - now rewrite app_nth1.
  - rewrite app_nth2 by lia. rewrite (nth_overflow l) by lia.
    apply nth_repeat.
Qed.

Lemma notna_iff (x : float64) : notna x = true <-> x <> nan.
Proof. unfold nan, notna. destruct x; simpl; split; intros; try easy. Qed.

Lemma isnull_iff (x : float64) : isnull x = true <-> x = nan.
Proof. unfold nan. destruct x; simpl; split; intros; congruence. Qed.

(** ** The loader *)

Section LoaderFacts.

Variable to_numeric : string -> option Q.

Lemma derive_pad (w : nat) (p : plant) :
  derive to_numeric p (pad w (split_cell ", " (coordinates p))) = clean_row to_numeric p.
Proof. unfold derive, clean_row, coordinate_part. now rewrite !cell_at_pad. Qed.

Lemma load_unfold (fs : filesystem) (path : string) (plants : list plant) :
  fs path = Some plants ->
  load_and_clean_data to_numeric fs path =
  if holds_text (map coordinates plants)
  then
    if Nat.eqb (coordinate_width plants) 2
    then Ok (List.filter has_coordinates
               (combine (seq 0 (length plants)) (map (clean_row to_numeric) plants)))
    else Raise (ValueError "Columns must be same length as key")
  else Raise (AttributeError "Can only use .str accessor with string values!").
Proof.
  intros Hfs. unfold load_and_clean_data, str_split_expand. rewrite Hfs.
  fold (coordinate_width plants).
  destruct (holds_text (map coordinates plants)); [|reflexivity].
  destruct (Nat.eqb (coordinate_width plants) 2); [|reflexivity].
  rewrite !map_map.
  rewrite (map_combine_map (derive to_numeric)
             (fun p => pad (coordinate_width plants) (split_cell ", " (coordinates p)))).
  rewrite (map_ext _ (clean_row to_numeric)) by (intros p; apply derive_pad).
  now rewrite !length_map.
Qed.

Lemma load_ok_width (fs : filesystem) (path : string) (plants : list plant)
  (df : frame) :
  fs path = Some plants ->
  load_and_clean_data to_numeric fs path = Ok df ->
  coordinate_width plants = 2.
Proof.
  intros Hfs. rewrite (load_unfold _ _ _ Hfs).
  destruct (holds_text (map coordinates plants)); [|discriminate].
  destruct (Nat.eqb_spec (coordinate_width plants) 2); [easy | discriminate].
Qed.

(** A row is in the cleaned frame exactly when it is the cleaned form of
    the line with its index and both coordinates are numbers. *)
Lemma load_ok_rows (fs : filesystem) (path : string) (plants : list plant)
  (df : frame) :
  fs path = Some plants ->
  load_and_clean_data to_numeric fs path = Ok df ->
  forall i r,
    In (i, r) df <->
    exists p, nth_error plants i = Some p /\ r = clean_row to_numeric p
              /\ lat r <> nan /\ Longitude r <> nan.
Proof.
  intros Hfs Hload i r. rewrite (load_unfold _ _ _ Hfs) in Hload.
  destruct (holds_text (map coordinates plants)); [|discriminate].
  destruct (Nat.eqb (coordinate_width plants) 2); [|discriminate].
  injection Hload as <-.
  rewrite filter_In. unfold has_coordinates. simpl.
  rewrite andb_true_iff, !notna_iff.
  rewrite <- (length_map (clean_row to_numeric) plants) at 1. rewrite in_indexed.
  rewrite nth_error_map. split.
  - intros [Hnth Hc]. destruct (nth_error plants i) as [p|]; [|discriminate].
    exists p. simpl in Hnth. split; [reflexivity|]. split; [congruence | exact Hc].
  - intros (p & Hnth & -> & Hc). rewrite Hnth. simpl. split; [reflexivity | exact Hc].
Qed.

End LoaderFacts.

Lemma sample_loads :
  load_and_clean_data decimal (on_disk sample_plants) DATA_FILE = Ok sample_df.
Proof. vm_compute. reflexivity. Qed.

Lemma length_le_expand_width (l : list (option string))
  (parts : list (list (option string))) :
  In l parts -> length l <= expand_width parts.
Proof.
  unfold expand_width. induction parts as [|l' parts IH]; simpl; [tauto|].
  intros [-> | Hin]; [lia|]. specialize (IH Hin). lia.
Qed.

Lemma holds_text_in (col : list (option string)) (s : string) :
  In (Some s) col -> holds_text col = true.
Proof.
  intros Hin. destruct col as [|c col]; [reflexivity|]. unfold holds_text.
  apply existsb_exists. exists (Some s). split; [exact Hin | reflexivity].
Qed.

(** The load fails as soon as one coordinate string has more than two
    parts. *)
Lemma load_raises_on_extra_parts (to_numeric : string -> option Q)
  (fs : filesystem) (path : string) (plants : list plant) (p : plant)
  (s : string) :
  fs path = Some plants ->
  In p plants ->
  coordinates p = Some s ->
  2 < length (str_split ", " s) ->
  load_and_clean_data to_numeric fs path =
  Raise (ValueError "Columns must be same length as key").
Proof.
  intros Hfs Hin Hs Hlen. rewrite (load_unfold _ _ _ _ Hfs).
  rewrite (holds_text_in _ s) by (rewrite <- Hs; now apply in_map).
  assert (Hw : 2 < coordinate_width plants).
  { eapply Nat.lt_le_trans; [exact Hlen|].
    rewrite <- (length_map Some). change (map Some (str_split ", " s))
      with (split_cell ", " (Some s)). rewrite <- Hs.
    apply length_le_expand_width. rewrite map_map.
    apply (in_map (fun x => split_cell ", " (coordinates x))). exact Hin. }
  destruct (Nat.eqb_spec (coordinate_width plants) 2); [lia | reflexivity].
Qed.

(** The load returns a frame exactly when the coordinate column holds
    text and expands to two columns. *)
Lemma load_ok_two_columns (to_numeric : string -> option Q)
  (fs : filesystem) (path : string) (plants : list plant) :
  fs path = Some plants ->
  (exists df, load_and_clean_data to_numeric fs path = Ok df) <->
  holds_text (map coordinates plants) = true /\ coordinate_width plants = 2.
Proof.
  intros Hfs. rewrite (load_unfold _ _ _ _ Hfs).
  destruct (holds_text (map coordinates plants)).
  - destruct (Nat.eqb_spec (coordinate_width plants) 2) as [Hw | Hw].
    + split; [auto | eauto].
    + split; [intros [df H]; discriminate | intros [_ H]; contradiction].
  - split; [intros [df H]; discriminate | intros [H _]; discriminate].
Qed.

(** ** C1: the derived capacity *)

(** C1. In the frame the loader returns, every row carries the line of the
    file with its index, and its [Capacity_Mtpa] is the parsed raw capacity
    divided by 1000 when the raw capacity parses as a number, NaN when it
    does not. *)
Theorem capacity_mtpa_is_ttpa_over_1000 (to_numeric : string -> option Q)
  (fs : filesystem) (path : string) (plants : list plant) (df : frame) :
  fs path = Some plants ->
  load_and_clean_data to_numeric fs path = Ok df ->
  forall i r, In (i, r) df ->
    nth_error plants i = Some (src r) /\
    Capacity_Mtpa r =
      match to_numeric_cell to_numeric (capacity_ttpa (src r)) with
      | Some q => Some (q / 1000)%Q
      | None => nan
      end.
Proof.
  intros Hfs Hload i r Hin.
  apply (load_ok_rows _ _ _ _ _ Hfs Hload) in Hin.
  destruct Hin as (p & Hnth & -> & _). simpl. split; [exact Hnth|].
  unfold truediv. now destruct (to_numeric_cell to_numeric (capacity_ttpa p)).
Qed.

(** Raw capacity "1500" gives 1.5, raw capacity "unknown" gives NaN. *)
Lemma capacity_mtpa_sample :
  In (0, sample_row 0) sample_df /\ In (1, sample_row 1) sample_df /\
  capacity_ttpa (src (sample_row 0)) = Some "1500" /\
  Capacity_Mtpa (sample_row 0) = Some (1500 / 1000)%Q /\
  (1500 / 1000 == 1.5)%Q /\
  capacity_ttpa (src (sample_row 1)) = Some "unknown" /\
  Capacity_Mtpa (sample_row 1) = nan.
Proof.
  pose proof (capacity_mtpa_is_ttpa_over_1000 decimal (on_disk sample_plants)
                DATA_FILE sample_plants sample_df eq_refl sample_loads) as H.
  assert (H0 : In (0, sample_row 0) sample_df) by (vm_compute; tauto).
  assert (H1 : In (1, sample_row 1) sample_df) by (vm_compute; tauto).
  split; [exact H0|]. split; [exact H1|]. split; [reflexivity|].
  split; [exact (proj2 (H _ _ H0))|]. split; [reflexivity|].
  split; [reflexivity|]. exact (proj2 (H _ _ H1)).
Defined.

(** ** C2: rows without coordinates are dropped *)

(** C2. Every row of the cleaned frame has a latitude and a longitude that
    are numbers; a line of the file whose first or second coordinate part
    does not parse has no row in the cleaned frame, and a line whose two
    parts parse has its row there. *)
Theorem cleaned_rows_have_coordinates (to_numeric : string -> option Q)
  (fs : filesystem) (path : string) (plants : list plant) (df : frame) :
  fs path = Some plants ->
  load_and_clean_data to_numeric fs path = Ok df ->
  (forall i r, In (i, r) df -> lat r <> nan /\ Longitude r <> nan) /\
  (forall i p, nth_error plants i = Some p ->
     to_numeric_cell to_numeric (coordinate_part 0 p) = nan \/
     to_numeric_cell to_numeric (coordinate_part 1 p) = nan ->
     ~ In i (map fst df)) /\
  (forall i p, nth_error plants i = Some p ->
     to_numeric_cell to_numeric (coordinate_part 0 p) <> nan ->
     to_numeric_cell to_numeric (coordinate_part 1 p) <> nan ->
     In (i, clean_row to_numeric p) df).
Proof.
  intros Hfs Hload. pose proof (load_ok_rows _ _ _ _ _ Hfs Hload) as Hrows.
  split; [|split].
  - intros i r Hin. apply Hrows in Hin. destruct Hin as (p & _ & _ & Hc).
    exact Hc.
  - intros i p Hnth Hbad Hin. apply in_map_iff in Hin.
    destruct Hin as ([i' r] & Hi & Hin). simpl in Hi. subst i'.
    apply Hrows in Hin. destruct Hin as (p' & Hnth' & -> & Hlat & Hlon).
    rewrite Hnth in Hnth'. injection Hnth' as <-. simpl in Hlat, Hlon.
    destruct Hbad; contradiction.
  - intros i p Hnth Hlat Hlon. apply Hrows. exists p.
    split; [exact Hnth|]. split; [reflexivity|]. split; assumption.
Qed.

(** In the sample, line 2 has the coordinate string "bad": rows 0, 1, 3
    and 4 are kept, row 2 is gone. *)
Lemma cleaned_sample_drops_bad :
  coordinates (nth 2 sample_plants (mkPlant "" "" "" None "" None "" "" None))
    = Some "bad" /\
  ~ In 2 (map fst sample_df) /\
  map fst sample_df = [0; 1; 3; 4] /\
  (forall i r, In (i, r) sample_df -> lat r <> nan /\ Longitude r <> nan).
Proof.
  destruct (cleaned_rows_have_coordinates decimal (on_disk sample_plants)
              DATA_FILE sample_plants sample_df eq_refl sample_loads)
    as (Hkept & Hdropped & _).
  split; [reflexivity|]. split.
  - apply (Hdropped 2 _ eq_refl). left. reflexivity.
  - split; [reflexivity | exact Hkept].
Defined.

(** ** C3: coordinate strings that are not pairs *)

(** C3. The load of a table in which one coordinate string has three parts
    raises [ValueError], whatever the numeric parser, and so does the load
    of a table whose only coordinate string has one part; the script does
    not catch the exception, so the run ends with it before anything is
    shown. *)
Theorem load_raises_when_not_two_columns (to_numeric : string -> option Q)
  (has_region : bool) (ui : inputs) :
  load_and_clean_data to_numeric (on_disk three_part_plants) DATA_FILE
    = Raise (ValueError "Columns must be same length as key") /\
  load_and_clean_data to_numeric (on_disk single_part_plants) DATA_FILE
    = Raise (ValueError "Columns must be same length as key") /\
  dashboard to_numeric (on_disk three_part_plants) has_region ui
    = ([StSetPageConfig "Global Steel Plants Dashboard"],
       inl (Uncaught (ValueError "Columns must be same length as key"))).
Proof. repeat split; reflexivity. Qed.

(** ** C4: the capacity filter *)

Lemma capacity_mask_iff (lo hi : Q) (r : row) :
  capacity_mask (lo, hi) r = true <->
  Capacity_Mtpa r = nan \/
  exists c, Capacity_Mtpa r = Some c /\ (lo <= c)%Q /\ (c <= hi)%Q.
Proof.
  unfold capacity_mask, ge, le, nan. simpl.
  destruct (Capacity_Mtpa r) as [c|]; simpl.
  - rewrite andb_true_iff, !Qle_bool_iff. split.
    + intros H. right. exists c. split; [reflexivity | exact H].
    + intros [H | (c' & Hc & H)]; [discriminate|]. injection Hc as <-. exact H.
  - split; [auto | reflexivity].
Qed.

(** C4. The capacity filter keeps a row exactly when its capacity is NaN or
    lies between the two bounds, both included: a row at the lower or at
    the upper bound of a range is kept, and a row with a NaN capacity is
    kept whatever the range. *)
Theorem capacity_filter_keeps (lo hi : Q) (df : frame) (i : nat) (r : row) :
  (In (i, r) (filter_capacity (lo, hi) df) <->
   In (i, r) df /\
   (Capacity_Mtpa r = nan \/
    exists c, Capacity_Mtpa r = Some c /\ (lo <= c)%Q /\ (c <= hi)%Q)) /\
  (forall c, (lo <= hi)%Q -> In (i, r) df -> Capacity_Mtpa r = Some c ->
             (c == lo)%Q \/ (c == hi)%Q ->
             In (i, r) (filter_capacity (lo, hi) df)) /\
  (In (i, r) df -> Capacity_Mtpa r = nan ->
   In (i, r) (filter_capacity (lo, hi) df)).
Proof.
  assert (Hiff : In (i, r) (filter_capacity (lo, hi) df) <->
                 In (i, r) df /\
                 (Capacity_Mtpa r = nan \/
                  exists c, Capacity_Mtpa r = Some c /\ (lo <= c)%Q /\ (c <= hi)%Q)).
  { unfold filter_capacity. rewrite filter_In. simpl.
    now rewrite capacity_mask_iff. }
  split; [exact Hiff|]. split.
  - intros c Hle Hin Hc Hb. apply Hiff. split; [exact Hin|]. right.
    exists c. split; [exact Hc|]. destruct Hb as [Hb | Hb]; split; lra.
  - intros Hin Hc. apply Hiff. split; [exact Hin | left; exact Hc].
Qed.

(** On the cleaned sample with the range 1.5 to 10: the row at 1.5, the
    row at 10 and the row of unknown capacity stay, the row at 0.0001
    goes. *)
Lemma capacity_filter_sample :
  map (fun ir => (fst ir, Capacity_Mtpa (snd ir))) sample_df
    = [(0, Some (1500 / 1000)%Q); (1, nan); (3, Some (10000 / 1000)%Q);
       (4, Some (0.1 / 1000)%Q)] /\
  map fst (filter_capacity (1.5, 10)%Q sample_df) = [0; 1; 3] /\
  In (0, sample_row 0) (filter_capacity (1.5, 10)%Q sample_df) /\
  In (1, sample_row 1) (filter_capacity (1.5, 10)%Q sample_df) /\
  In (3, sample_row 3) (filter_capacity (1.5, 10)%Q sample_df).
Proof.
  assert (H0 : In (0, sample_row 0) sample_df) by (vm_compute; tauto).
  assert (H1 : In (1, sample_row 1) sample_df) by (vm_compute; tauto).
  assert (H3 : In (3, sample_row 3) sample_df) by (vm_compute; tauto).
  split; [reflexivity|]. split; [reflexivity|]. split; [|split].
  - apply (proj1 (proj2 (capacity_filter_keeps 1.5 10 sample_df 0 (sample_row 0)))
             (1500 / 1000)%Q); [vm_compute; discriminate | exact H0 | reflexivity |].
    left. reflexivity.
  - apply (proj2 (proj2 (capacity_filter_keeps 1.5 10 sample_df 1 (sample_row 1))) H1).
    reflexivity.
  - apply (proj1 (capacity_filter_keeps 1.5 10 sample_df 3 (sample_row 3))).
    split; [exact H3|]. right. exists (10000 / 1000)%Q.
    split; [reflexivity|]. split; vm_compute; discriminate.
Defined.

(** ** C5: the owner and country filters *)

Lemma isin_iff (values : list string) (x : string) :
  isin values x = true <-> In x values.
Proof.
  unfold isin. rewrite existsb_exists. split.
  - intros (y & Hin & Heq). apply String.eqb_eq in Heq. now subst.
  - intros Hin. exists x. split; [exact Hin | apply String.eqb_refl].
Qed.

Lemma filter_isin_iff (col : plant -> string) (selected : list string)
  (df : frame) (i : nat) (r : row) :
  In (i, r) (filter_isin col selected df) <->
  In (i, r) df /\ (selected = [] \/ In (col (src r)) selected).
Proof.
  unfold filter_isin. destruct selected as [|x selected].
  - split; [auto | tauto].
  - rewrite filter_In, isin_iff. simpl. split.
    + intros [Hin H]. auto.
    + intros [Hin [H | H]]; [discriminate | auto].
Qed.

(** C5. After the three filters a row is kept exactly when it was in the
    frame, its owner passes the owner selection, its country passes the
    country selection and its capacity passes the range; a selection is
    passed when it is empty or contains the value.  With no owner selected
    the result is the one the country and capacity filters give alone, and
    with no country selected the one the owner and capacity filters
    give. *)
Theorem empty_selection_is_no_restriction (companies countries : list string)
  (capacity_range : Q * Q) (df : frame) :
  (forall i r,
     In (i, r) (apply_filters companies countries capacity_range df) <->
     In (i, r) df /\
     (companies = [] \/ In (owner (src r)) companies) /\
     (countries = [] \/ In (country (src r)) countries) /\
     capacity_mask capacity_range r = true) /\
  filter_isin owner [] df = df /\
  filter_isin country [] df = df /\
  apply_filters [] countries capacity_range df =
    filter_capacity capacity_range (filter_isin country countries df) /\
  apply_filters companies [] capacity_range df =
    filter_capacity capacity_range (filter_isin owner companies df).
Proof.
  split; [|repeat split; reflexivity].
  intros i r. unfold apply_filters, filter_capacity.
  rewrite filter_In, !filter_isin_iff. simpl. tauto.
Qed.

(** On the cleaned sample: selecting the owner "Sider" keeps rows 0 and 4,
    selecting nobody keeps all four rows. *)
Lemma owner_filter_sample :
  map fst (apply_filters ["Sider"] [] (0, 10)%Q sample_df) = [0; 4] /\
  map fst (apply_filters [] [] (0, 10)%Q sample_df) = [0; 1; 3; 4] /\
  In (0, sample_row 0) (apply_filters ["Sider"] [] (0, 10)%Q sample_df).
Proof.
  split; [reflexivity|]. split; [reflexivity|].
  apply (proj1 (empty_selection_is_no_restriction ["Sider"] [] (0, 10)%Q sample_df)).
  split; [vm_compute; tauto|]. split; [right; left; reflexivity|].
  split; [left; reflexivity | reflexivity].
Defined.

(** ** C6: the KPIs *)

Lemma rint_close (y : Q) :
  (inject_Z (rint y) - y <= 1 # 2)%Q /\ (y - inject_Z (rint y) <= 1 # 2)%Q.
Proof.
  unfold rint. pose proof (Qfloor_le y) as Hlo. pose proof (Qlt_floor y) as Hhi.
  rewrite inject_Z_plus in Hhi. change (inject_Z 1) with 1%Q in Hhi.
  destruct (Qcompare_spec (y - inject_Z (Qfloor y)) (1 # 2)) as [He | Hl | Hg].
  - destruct (Z.even (Qfloor y)).
    + split; lra.
    + rewrite inject_Z_plus. change (inject_Z 1) with 1%Q. split; lra.
  - split; lra.
  - rewrite inject_Z_plus. change (inject_Z 1) with 1%Q. split; lra.
Qed.

Lemma round2_rounds (x : Q) : rounded_to_2_decimals x (round2 x).
Proof.
  unfold rounded_to_2_decimals, round2. split.
  - exists (rint (x * 100)). reflexivity.
  - destruct (rint_close (x * 100)) as [H1 H2].
    set (z := inject_Z (rint (x * 100))) in *.
    change (z / 100)%Q with (z * (1 # 100))%Q.
    apply Qabs_Qle_condition. split; lra.
Qed.

Lemma in_unique (l : list string) (x : string) : In x (unique l) <-> In x l.
Proof.
  induction l as [|a l IH]; simpl; [tauto|].
  rewrite filter_In, IH, negb_true_iff, String.eqb_neq. split.
  - intros [H | [H _]]; auto.
  - intros [H | H]; [auto|]. destruct (String.eqb_spec a x); auto.
Qed.

Lemma NoDup_unique (l : list string) : List.NoDup (unique l).
Proof.
  induction l as [|a l IH]; simpl; constructor.
  - rewrite filter_In, negb_true_iff, String.eqb_neq. intros [_ H]. now apply H.
  - now apply List.NoDup_filter.
Qed.

Lemma dropna_capacity_column (df : frame) :
  dropna (capacity_column df) = non_null_capacities df.
Proof.
  unfold capacity_column, non_null_capacities.
  induction df as [|[i r] df IH]; simpl; [reflexivity|].
  destruct (Capacity_Mtpa r); simpl; now rewrite IH.
Qed.

(** When no row has a capacity the mean is NaN, and so is the average
    shown. *)
Lemma avg_capacity_all_null (df : frame) :
  df <> [] -> non_null_capacities df = [] -> avg_capacity df = nan.
Proof.
  intros Hne Hnull. unfold avg_capacity, total_plants, series_mean.
  rewrite dropna_capacity_column, Hnull. destruct df; [contradiction | reflexivity].
Qed.

(** C6. For every frame: the plant count is the number of rows; the total
    capacity is the sum of the non-null capacities rounded to two decimals;
    the average capacity is 0 for a frame without rows and otherwise the
    mean of the non-null capacities rounded to two decimals (when there is
    one); the country count is the number of distinct countries of the
    rows.  Capacities 1.0, 2.0, NaN, 3.0 give a total of 6, an average of 2
    and a count of 4. *)
Theorem kpis_aggregate (df : frame) :
  total_plants df = length df /\
  total_capacity df = round2 (Qsum (non_null_capacities df)) /\
  rounded_to_2_decimals (Qsum (non_null_capacities df)) (total_capacity df) /\
  (df = [] -> avg_capacity df = Some 0%Q) /\
  (non_null_capacities df <> [] ->
   avg_capacity df = Some (round2 (Qmean (non_null_capacities df))) /\
   rounded_to_2_decimals (Qmean (non_null_capacities df))
     (round2 (Qmean (non_null_capacities df)))) /\
  (exists distinct : list string,
     List.NoDup distinct /\
     (forall c, In c distinct <->
                exists i r, In (i, r) df /\ country (src r) = c) /\
     unique_countries df = length distinct) /\
  (map (fun ir => Capacity_Mtpa (snd ir)) kpi_frame
     = [Some 1%Q; Some 2%Q; nan; Some 3%Q] /\
   total_plants kpi_frame = 4 /\
   (total_capacity kpi_frame == 6)%Q /\
   exists avg, avg_capacity kpi_frame = Some avg /\ (avg == 2)%Q).
Proof.
  split; [reflexivity|]. split.
  { unfold total_capacity, series_sum. now rewrite dropna_capacity_column. }
  split.
  { unfold total_capacity, series_sum. rewrite dropna_capacity_column.
    apply round2_rounds. }
  split; [intros ->; reflexivity|]. split.
  { intros Hne. split; [|apply round2_rounds].
    unfold avg_capacity, total_plants, series_mean.
    rewrite dropna_capacity_column.
    destruct df as [|ir df]; [now contradiction Hne|]. simpl Nat.ltb. cbv iota.
    destruct (non_null_capacities (ir :: df)) as [|q l]; [now contradiction Hne|].
    reflexivity. }
  split.
  { exists (unique (map (fun ir => country (src (snd ir))) df)).
    split; [apply NoDup_unique|]. split; [|reflexivity].
    intros c. rewrite in_unique, in_map_iff. split.
    - intros ([i r] & Hc & Hin). exists i, r. auto.
    - intros (i & r & Hin & Hc). exists (i, r). auto. }
  split; [reflexivity|]. split; [reflexivity|]. split; [reflexivity|].
  eexists. split; reflexivity.
Qed.

(** The KPIs of the frame with capacities 1.0, 2.0, NaN, 3.0, and the
    average of a frame without rows. *)
Lemma kpis_aggregate_sample :
  avg_capacity [] = Some 0%Q /\
  avg_capacity kpi_frame = Some (round2 (Qmean [1; 2; 3]))%Q /\
  (round2 (Qmean [1; 2; 3]) == 2)%Q /\
  unique_countries kpi_frame = 3.
Proof.
  split; [exact (proj1 (proj2 (proj2 (proj2 (kpis_aggregate [])))) eq_refl)|].
  split; [|split; reflexivity].
  apply (proj1 (proj2 (proj2 (proj2 (proj2 (kpis_aggregate kpi_frame)))))).
  discriminate.
Defined.

(** ** C7: an empty subset stops the run *)

Lemma render_empty (has_region : bool) (df : frame)
  (companies countries : list string) (capacity_range : Q * Q) :
  apply_filters companies countries capacity_range df = [] ->
  render has_region df companies countries capacity_range
  = ([StError NO_MATCH], inl Stopped).
Proof. intros H. unfold render. rewrite H. reflexivity. Qed.

Lemma sidebar_events_no_view (df : frame) (ui : inputs) (e : ui_event) :
  In e (events (sidebar df ui)) -> is_view_event e = false.
Proof.
  unfold sidebar. destruct (dropna (capacity_column df)); simpl;
    intros H; repeat (destruct H as [<- | H]; [reflexivity|]); destruct H.
Qed.

(** C7. When the filters leave no row, the run ends in [st.stop()] right
    after the error message "No steel plants match the selected filters.
    Please adjust your selections.": the message is the last event, and no
    metric, map or table is among the events of the run. *)
Theorem empty_subset_stops (to_numeric : string -> option Q)
  (fs : filesystem) (has_region : bool) (ui : inputs) (df : frame)
  (capacity_range : Q * Q) :
  load_and_clean_data to_numeric fs DATA_FILE = Ok df ->
  outcome (sidebar df ui) = inr capacity_range ->
  apply_filters (selected_companies ui) (selected_countries ui)
    capacity_range df = [] ->
  render has_region df (selected_companies ui) (selected_countries ui)
    capacity_range = ([StError NO_MATCH], inl Stopped) /\
  outcome (dashboard to_numeric fs has_region ui) = inl Stopped /\
  (exists before,
     events (dashboard to_numeric fs has_region ui)
     = (before ++ [StError NO_MATCH])%list) /\
  (forall e, In e (events (dashboard to_numeric fs has_region ui)) ->
             is_view_event e = false).
Proof.
  intros Hload Hrange Hempty.
  pose proof (render_empty has_region _ _ _ _ Hempty) as Hrender.
  split; [exact Hrender|].
  pose proof (sidebar_events_no_view df ui) as Hside.
  unfold dashboard, load_or_stop. rewrite Hload. cbn [bind ret emit].
  destruct (sidebar df ui) as [out [h | range]] eqn:Hsb; simpl in Hrange;
    [discriminate|]. injection Hrange as ->.
  unfold events, outcome in *. simpl in Hside.
  cbn [bind]. rewrite Hrender. cbn [fst snd app].
  split; [reflexivity|]. split.
  - eexists (_ :: _ :: _ :: _ :: out). reflexivity.
  - intros e [<- | [<- | [<- | [<- | H]]]]; try reflexivity.
    apply in_app_or in H. destruct H as [H | [<- | []]]; [auto | reflexivity].
Qed.

(** Selecting an owner that owns nothing in the sample stops the run. *)
Lemma empty_subset_stops_sample :
  outcome (dashboard decimal (on_disk sample_plants) true
             (mkInputs ["Nobody"] [] (0, 10)%Q)) = inl Stopped /\
  forall e,
    In e (events (dashboard decimal (on_disk sample_plants) true
                    (mkInputs ["Nobody"] [] (0, 10)%Q))) ->
    is_view_event e = false.
Proof.
  destruct (empty_subset_stops decimal (on_disk sample_plants) true
              (mkInputs ["Nobody"] [] (0, 10)%Q) sample_df (0, 10)%Q
              sample_loads eq_refl eq_refl) as (_ & Hstop & _ & Hnone).
  split; [exact Hstop | exact Hnone].
Defined.

(** ** C8: the marker radius *)

Lemma Qle_bool_false (x y : Q) : Qle_bool x y = false <-> (y < x)%Q.
Proof.
  rewrite <- not_true_iff_false, Qle_bool_iff. split.
  - apply Qnot_le_lt.
  - intros H. now apply Qlt_not_le.
Qed.

Lemma clip_is_clamp (lo hi x : Q) :
  (lo <= hi)%Q -> (clip lo hi x == clamp x lo hi)%Q.
Proof.
  intros Hle. unfold clip, clamp.
  destruct (Q.min_spec x hi) as [[H1 E1] | [H1 E1]];
    destruct (Q.max_spec lo (Qmin x hi)) as [[H2 E2] | [H2 E2]];
    rewrite E2; rewrite ?E1; rewrite E1 in H2;
    destruct (Qle_bool x hi) eqn:Hhi; destruct (Qle_bool lo x) eqn:Hlo;
    rewrite ?Qle_bool_iff, ?Qle_bool_false in *; lra.
Qed.

Lemma in_styled (df : frame) (i : nat) (m : marker) :
  In (i, m) (styled df) <->
  exists r, In (i, r) df /\ plottable (i, r) = true /\
            m = {| point := r;
                   radius := marker_radius (Capacity_Mtpa r);
                   color := marker_color (region (src r)) |}.
Proof.
  unfold styled, map_data. rewrite in_map_iff. split.
  - intros ([i' r] & Heq & Hin). apply filter_In in Hin.
    unfold style in Heq. simpl in Heq. injection Heq as -> <-.
    exists r. tauto.
  - intros (r & Hin & Hp & ->). exists (i, r). split; [reflexivity|].
    apply filter_In. tauto.
Qed.

(** The chart a run shows carries the styled rows of the filtered
    subset. *)
Lemma render_chart (has_region : bool) (df : frame)
  (companies countries : list string) (capacity_range : Q * Q) (d : deck) :
  In (StPydeckChart d)
    (events (render has_region df companies countries capacity_range)) ->
  has_region = true /\
  layer_data d = styled (apply_filters companies countries capacity_range df).
Proof.
  unfold render. set (dff := apply_filters _ _ _ _).
  destruct dff as [|ir dff'] eqn:Hdff.
  - simpl. intros [H | []]. discriminate.
  - rewrite <- Hdff. clear Hdff. unfold kpis, plant_map, data_table, footer, events.
    destruct (map_data dff) eqn:Hmd; destruct has_region;
      cbn [bind emit raise ret fst snd app];
      intros H;
      repeat (destruct H as [H | H]; [try discriminate|]);
      try (now destruct H).
    injection H as <-. split; reflexivity.
Qed.

(** C8. Every point of the chart a run shows has a capacity [c] that is a
    number, and its radius is [c * 20000] clamped to the interval from 5000
    to 80000; so is the radius computed for any capacity.  Capacity 0.0001
    gives 5000, capacity 10 gives 80000, capacity 1 gives 20000. *)
Theorem marker_radius_is_clamped :
  (forall (has_region : bool) (df : frame) (companies countries : list string)
          (capacity_range : Q * Q) (d : deck) (i : nat) (m : marker),
     In (StPydeckChart d)
       (events (render has_region df companies countries capacity_range)) ->
     In (i, m) (layer_data d) ->
     exists c r,
       Capacity_Mtpa (point m) = Some c /\ radius m = Some r /\
       (r == clamp (c * 20000) 5000 80000)%Q) /\
  (forall c : Q,
     exists r, marker_radius (Some c) = Some r /\
               (r == clamp (c * 20000) 5000 80000)%Q) /\
  marker_radius (Some 0.0001%Q) = Some 5000%Q /\
  marker_radius (Some 10%Q) = Some 80000%Q /\
  marker_radius (Some 1%Q) = Some 20000%Q.
Proof.
  assert (Hfun : forall c : Q,
             exists r, marker_radius (Some c) = Some r /\
                       (r == clamp (c * 20000) 5000 80000)%Q).
  { intros c. eexists. split; [reflexivity|]. now apply clip_is_clamp. }
  split; [|split; [exact Hfun | repeat split; reflexivity]].
  intros has_region df companies countries capacity_range d i m Hev Hin.
  apply render_chart in Hev. destruct Hev as [_ Hdata]. rewrite Hdata in Hin.
  apply in_styled in Hin. destruct Hin as (r & _ & Hp & ->). simpl.
  unfold plottable in Hp. simpl in Hp. rewrite !andb_true_iff in Hp.
  destruct Hp as [_ Hcap]. destruct (Capacity_Mtpa r) as [c|]; [|discriminate].
  destruct (Hfun c) as (rad & Hrad & Hclamp). exists c, rad. auto.
Qed.

(** The chart of the unfiltered sample: the plant of 1.5 Mtpa has radius
    30000, the plant of 10 Mtpa radius 80000, the plant of 0.0001 Mtpa
    radius 5000. *)
Lemma marker_radius_sample :
  In (StPydeckChart sample_deck)
    (events (render true sample_df [] [] (0, 10)%Q)) /\
  map (fun im => (fst im, radius (snd im))) (layer_data sample_deck)
    = [(0, Some (1500 / 1000 * 20000)%Q); (3, Some 80000%Q); (4, Some 5000%Q)] /\
  forall i m,
    In (i, m) (layer_data sample_deck) ->
    exists c r,
      Capacity_Mtpa (point m) = Some c /\ radius m = Some r /\
      (r == clamp (c * 20000) 5000 80000)%Q.
Proof.
  assert (Hev : In (StPydeckChart sample_deck)
                  (events (render true sample_df [] [] (0, 10)%Q)))
    by (do 8 right; left; reflexivity).
  split; [exact Hev|]. split; [reflexivity|]. intros i m.
  exact (proj1 marker_radius_is_clamped true sample_df [] [] (0, 10)%Q
           sample_deck i m Hev).
Defined.

(** ** C9 and C10: the marker colour *)

Lemma marker_color_cases (reg : option string) :
  (forall s c, reg = Some s -> region_colors !! s = Some c ->
               marker_color reg = c) /\
  (forall s, reg = Some s -> region_colors !! s = None ->
             marker_color reg = gray) /\
  (reg = None -> marker_color reg = gray).
Proof.
  unfold marker_color, series_map, list_or_gray. split; [|split].
  - intros s c -> Hc. now rewrite Hc.
  - intros s -> Hc. now rewrite Hc.
  - intros ->. reflexivity.
Qed.

(** C9. Every point of the chart a run shows has the colour the palette
    gives its region when the region is a key of the palette, and gray
    [128, 128, 128, 160] when the region is missing or is not a key.  The
    palette has the seven entries of the script. *)
Theorem marker_color_from_palette :
  (forall (has_region : bool) (df : frame) (companies countries : list string)
          (capacity_range : Q * Q) (d : deck) (i : nat) (m : marker),
     In (StPydeckChart d)
       (events (render has_region df companies countries capacity_range)) ->
     In (i, m) (layer_data d) ->
     (forall s c, region (src (point m)) = Some s ->
                  region_colors !! s = Some c -> color m = c) /\
     (forall s, region (src (point m)) = Some s ->
                region_colors !! s = None -> color m = [128; 128; 128; 160]%Z) /\
     (region (src (point m)) = None -> color m = [128; 128; 128; 160]%Z)) /\
  region_colors !! "Asia Pacific" = Some [250; 0; 0; 160]%Z /\
  region_colors !! "Europe" = Some [0; 128; 255; 160]%Z /\
  region_colors !! "Africa" = Some [0; 200; 0; 160]%Z /\
  region_colors !! "North America" = Some [255; 165; 0; 160]%Z /\
  region_colors !! "Middle East" = Some [255; 220; 0; 160]%Z /\
  region_colors !! "Central & South America " = Some [160; 32; 240; 160]%Z /\
  region_colors !! "Eurasia" = Some [255; 105; 180; 160]%Z /\
  size region_colors = 7.
Proof.
  split; [|repeat split; reflexivity].
  intros has_region df companies countries capacity_range d i m Hev Hin.
  apply render_chart in Hev. destruct Hev as [_ Hdata]. rewrite Hdata in Hin.
  apply in_styled in Hin. destruct Hin as (r & _ & _ & ->). simpl.
  apply marker_color_cases.
Qed.

(** The chart of the unfiltered sample: the African plant is green, the
    plant without a region gray. *)
Lemma marker_color_sample :
  In (StPydeckChart sample_deck)
    (events (render true sample_df [] [] (0, 10)%Q)) /\
  map (fun im => (region (src (point (snd im))), color (snd im)))
    (layer_data sample_deck)
  = [ (Some "Africa", [0; 200; 0; 160]%Z);
      (Some "Central & South America", [128; 128; 128; 160]%Z);
      (None, [128; 128; 128; 160]%Z) ] /\
  forall i m,
    In (i, m) (layer_data sample_deck) ->
    region (src (point m)) = None -> color m = [128; 128; 128; 160]%Z.
Proof.
  assert (Hev : In (StPydeckChart sample_deck)
                  (events (render true sample_df [] [] (0, 10)%Q)))
    by (do 8 right; left; reflexivity).
  split; [exact Hev|]. split; [reflexivity|]. intros i m Hin.
  exact (proj2 (proj2 (proj1 marker_color_from_palette true sample_df [] []
                         (0, 10)%Q sample_deck i m Hev Hin))).
Defined.

(** Without a 'Region' column the map block raises before any point is
    drawn: no chart is shown at all. *)
Lemma missing_region_column_raises (df : frame)
  (companies countries : list string) (capacity_range : Q * Q) :
  map_data (apply_filters companies countries capacity_range df) <> [] ->
  outcome (render false df companies countries capacity_range)
  = inl (Uncaught (AttributeError "'str' object has no attribute 'map'")).
Proof.
  unfold render. set (dff := apply_filters _ _ _ _). intros Hne.
  destruct dff as [|ir dff'] eqn:Hdff; [exfalso; apply Hne; reflexivity|].
  rewrite <- Hdff in *. clear Hdff. unfold kpis, plant_map, outcome.
  destruct (map_data dff); [exfalso; apply Hne; reflexivity | reflexivity].
Qed.

(** C10. The palette has "Central & South America " with a space at the
    end as a key and not "Central & South America": a point whose region
    is "Central & South America" is gray [128, 128, 128, 160], not purple
    [160, 32, 240, 160]. *)
Theorem central_south_america_is_gray :
  region_colors !! "Central & South America " = Some purple /\
  region_colors !! "Central & South America" = None /\
  marker_color (Some "Central & South America") = [128; 128; 128; 160]%Z /\
  marker_color (Some "Central & South America") <> [160; 32; 240; 160]%Z /\
  (forall (df : frame) (i : nat) (m : marker),
     In (i, m) (styled df) ->
     region (src (point m)) = Some "Central & South America" ->
     color m = [128; 128; 128; 160]%Z).
Proof.
  split; [reflexivity|]. split; [reflexivity|]. split; [reflexivity|].
  split; [discriminate|].
  intros df i m Hin Hreg. apply in_styled in Hin.
  destruct Hin as (r & _ & _ & ->). simpl in *. now rewrite Hreg.
Qed.

(** The Brazilian plant of the sample is drawn gray. *)
Lemma central_south_america_sample :
  exists m,
    In (3, m) (styled sample_df) /\
    region (src (point m)) = Some "Central & South America" /\
    color m = [128; 128; 128; 160]%Z.
Proof.
  exists (snd (style (3, sample_row 3))).
  assert (Hin : In (3, snd (style (3, sample_row 3))) (styled sample_df))
    by (vm_compute; tauto).
  split; [exact Hin|]. split; [reflexivity|].
  exact (proj2 (proj2 (proj2 (proj2 central_south_america_is_gray)))
           sample_df 3 _ Hin eq_refl).
Defined.

(** * Further properties *)

(** ** How a failed load ends the run *)

(** X1. The load raises [FileNotFoundError] exactly when the data file is
    not there; the run then shows the "not found" message and stops.  Any
    other exception of the load is not caught: the run ends with it, and
    nothing but the page configuration has happened. *)
Theorem load_failure_ends_run (to_numeric : string -> option Q)
  (fs : filesystem) (has_region : bool) (ui : inputs) :
  (load_and_clean_data to_numeric fs DATA_FILE = Raise FileNotFoundError <->
   fs DATA_FILE = None) /\
  (fs DATA_FILE = None ->
   dashboard to_numeric fs has_region ui
   = ([StSetPageConfig "Global Steel Plants Dashboard"; StError NOT_FOUND],
      inl Stopped)) /\
  (forall e, load_and_clean_data to_numeric fs DATA_FILE = Raise e ->
             e <> FileNotFoundError ->
             dashboard to_numeric fs has_region ui
             = ([StSetPageConfig "Global Steel Plants Dashboard"],
                inl (Uncaught e))).
Proof.
  split; [|split].
  - unfold load_and_clean_data. destruct (fs DATA_FILE) as [plants|].
    + split; [|discriminate].
      destruct (holds_text _); [|discriminate].
      destruct (str_split_expand _ _) as [w coords].
      destruct (Nat.eqb w 2); discriminate.
    + split; reflexivity.
  - intros Hnone. unfold dashboard, load_or_stop, load_and_clean_data.
    rewrite Hnone. reflexivity.
  - intros e Hload Hne. unfold dashboard, load_or_stop. rewrite Hload.
    destruct e; [contradiction | reflexivity ..].
Qed.

(** A disk without the file, and a disk with the three-part table. *)
Lemma load_failure_sample :
  dashboard decimal (fun _ => None) true (mkInputs [] [] (0, 10)%Q)
  = ([StSetPageConfig "Global Steel Plants Dashboard"; StError NOT_FOUND],
     inl Stopped) /\
  dashboard decimal (on_disk three_part_plants) true (mkInputs [] [] (0, 10)%Q)
  = ([StSetPageConfig "Global Steel Plants Dashboard"],
     inl (Uncaught (ValueError "Columns must be same length as key"))).
Proof.
  split.
  - apply (proj1 (proj2 (load_failure_ends_run decimal (fun _ => None) true
                           (mkInputs [] [] (0, 10)%Q)))). reflexivity.
  - apply (proj2 (proj2 (load_failure_ends_run decimal
                           (on_disk three_part_plants) true
                           (mkInputs [] [] (0, 10)%Q)))).
    + reflexivity.
    + discriminate.
Defined.

(** ** When the load succeeds *)

Lemma expand_width_le (parts : list (list (option string))) (n : nat) :
  expand_width parts <= n <-> forall l, In l parts -> length l <= n.
Proof.
  unfold expand_width. rewrite list_max_le, List.Forall_forall. split.
  - intros H l Hin. apply H. now apply in_map.
  - intros H k Hk. apply in_map_iff in Hk. destruct Hk as (l & <- & Hin). auto.
Qed.

Lemma expand_width_attained (parts : list (list (option string))) :
  parts <> [] -> exists l, In l parts /\ length l = expand_width parts.
Proof.
  unfold expand_width. induction parts as [|l parts IH]; [congruence|].
  intros _. simpl. destruct parts as [|l' parts].
  - exists l. simpl. split; [auto | lia].
  - destruct IH as (m & Hin & Hm); [discriminate|].
    destruct (Nat.max_spec (length l) (list_max (map (@length _) (l' :: parts))))
      as [[_ E] | [_ E]]; rewrite E.
    + exists m. split; [right; exact Hin | exact Hm].
    + exists l. split; [left; reflexivity | reflexivity].
Qed.

Lemma str_split_not_nil (sep : string) (k : nat) (s : string) :
  split_from sep k s <> [].
Proof.
  revert k. induction s as [|c s IH]; intros k; [discriminate|].
  destruct k as [|k]; cbn [split_from]; [|apply IH].
  destruct (String.prefix sep (String c s)); [discriminate|].
  destruct (split_from sep 0 s); discriminate.
Qed.

(** X2. The load of a file that is there returns a frame exactly when no
    coordinate string has more than two parts and at least one has two. *)
Theorem load_succeeds_iff (to_numeric : string -> option Q)
  (fs : filesystem) (path : string) (plants : list plant) :
  fs path = Some plants ->
  ((exists df, load_and_clean_data to_numeric fs path = Ok df) <->
   (exists p s, In p plants /\ coordinates p = Some s /\
                length (str_split ", " s) = 2) /\
   (forall p s, In p plants -> coordinates p = Some s ->
                length (str_split ", " s) <= 2)).
Proof.
  intros Hfs. rewrite (load_ok_two_columns to_numeric fs path plants Hfs).
  unfold coordinate_width. rewrite map_map. split.
  - intros [Htext Hw]. split.
    + destruct (expand_width_attained
                  (map (fun x => split_cell ", " (coordinates x)) plants))
        as (l & Hin & Hl).
      { destruct plants; [discriminate Hw | discriminate]. }
      apply in_map_iff in Hin. destruct Hin as (p & <- & Hin).
      rewrite Hw in Hl. destruct (coordinates p) as [s|] eqn:Hs.
      * exists p, s. simpl in Hl. rewrite length_map in Hl. auto.
      * discriminate Hl.
    + intros p s Hin Hs.
      assert (Hle : expand_width
                      (map (fun x => split_cell ", " (coordinates x)) plants) <= 2)
        by lia.
      rewrite expand_width_le in Hle.
      specialize (Hle (split_cell ", " (coordinates p))).
      rewrite Hs in Hle. simpl in Hle. rewrite length_map in Hle.
      apply Hle. apply in_map_iff. exists p. rewrite Hs. auto.
  - intros [(p & s & Hin & Hs & Hlen) Hall]. split.
    + apply (holds_text_in _ s). rewrite <- Hs. now apply in_map.
    + apply Nat.le_antisymm.
      * apply expand_width_le. intros l Hl. apply in_map_iff in Hl.
        destruct Hl as (p' & <- & Hin'). destruct (coordinates p') as [s'|] eqn:Hs'.
        -- simpl. rewrite length_map. eauto.
        -- simpl. lia.
      * rewrite <- Hlen, <- (length_map Some).
        change (map Some (str_split ", " s)) with (split_cell ", " (Some s)).
        rewrite <- Hs. apply length_le_expand_width.
        apply (in_map (fun x => split_cell ", " (coordinates x))). exact Hin.
Qed.

(** The sample loads; the table with a three-part string does not. *)
Lemma load_succeeds_sample :
  (exists df, load_and_clean_data decimal (on_disk sample_plants) DATA_FILE = Ok df) /\
  ~ (exists df, load_and_clean_data decimal (on_disk three_part_plants) DATA_FILE
                = Ok df).
Proof.
  split.
  - apply (proj2 (load_succeeds_iff decimal (on_disk sample_plants) DATA_FILE
                    sample_plants eq_refl)).
    split.
    + exists (nth 0 sample_plants (mkPlant "" "" "" None "" None "" "" None)).
      exists "36.7539610, 6.2444200". repeat split. simpl. auto.
    + intros p s Hin Hs. simpl in Hin.
      repeat (destruct Hin as [<- | Hin];
              [injection Hs as <-; vm_compute; lia|]).
      destruct Hin.
  - intros H.
    apply (proj1 (load_succeeds_iff decimal (on_disk three_part_plants) DATA_FILE
                    three_part_plants eq_refl)) in H.
    destruct H as [_ Hall].
    specialize (Hall (nth 1 three_part_plants (mkPlant "" "" "" None "" None "" "" None))
                  "51.0333, 2.3000, 12.0").
    assert (Hle : length (str_split ", " "51.0333, 2.3000, 12.0") <= 2).
    { apply Hall; [simpl; auto | reflexivity]. }
    vm_compute in Hle. lia.
Defined.

(** ** The labels of the cleaned frame *)

Lemma map_fst_indexed {A : Type} (l : list A) (s : nat) :
  map fst (combine (seq s (length l)) l) = seq s (length l).
Proof.
  revert s. induction l as [|x l IH]; intros s; simpl; [reflexivity|].
  now rewrite IH.
Qed.

Lemma seq_increasing (s n : nat) : StronglySorted lt (seq s n).
Proof.
  revert s. induction n as [|n IH]; intros s; simpl; constructor.
  - apply IH.
  - apply List.Forall_forall. intros i Hi. apply in_seq in Hi. lia.
Qed.

Lemma filter_keeps_increasing {A : Type} (f : nat * A -> bool)
  (l : list (nat * A)) :
  StronglySorted lt (map fst l) -> StronglySorted lt (map fst (List.filter f l)).
Proof.
  induction l as [|x l IH]; simpl; intros H; [constructor|].
  apply StronglySorted_inv in H. destruct H as [Hs Hall].
  destruct (f x); simpl; [|auto]. constructor; [auto|].
  rewrite List.Forall_forall in *. intros i Hi. apply Hall.
  apply in_map_iff in Hi. destruct Hi as (y & <- & Hy).
  apply filter_In in Hy. apply in_map. tauto.
Qed.

Lemma length_cleaned (to_numeric : string -> option Q) (plants : list plant)
  (s : nat) :
  length (List.filter (has_coordinates)
            (combine (seq s (length plants)) (map (clean_row to_numeric) plants)))
  = length (List.filter (locatable to_numeric) plants).
Proof.
  revert s. induction plants as [|p plants IH]; intros s; simpl; [reflexivity|].
  change (has_coordinates (s, clean_row to_numeric p))
    with (locatable to_numeric p).
  destruct (locatable to_numeric p); simpl; now rewrite IH.
Qed.

Lemma cleaned_labels_sorted (to_numeric : string -> option Q)
  (fs : filesystem) (path : string) (plants : list plant) (df : frame) :
  fs path = Some plants ->
  load_and_clean_data to_numeric fs path = Ok df ->
  StronglySorted lt (map fst df).
Proof.
  intros Hfs Hload. rewrite (load_unfold _ _ _ _ Hfs) in Hload.
  destruct (holds_text _); [|discriminate].
  destruct (Nat.eqb _ 2); [|discriminate]. injection Hload as <-.
  apply filter_keeps_increasing.
  rewrite <- (length_map (clean_row to_numeric) plants), map_fst_indexed.
  apply seq_increasing.
Qed.

(** X3. The cleaned frame keeps the lines in their order under the labels
    [read_csv] gave them: its labels increase strictly, each is the number
    of a line of the file, and it has as many rows as the file has lines
    with two coordinate parts that are numbers. *)
Theorem cleaned_labels_increase (to_numeric : string -> option Q)
  (fs : filesystem) (path : string) (plants : list plant) (df : frame) :
  fs path = Some plants ->
  load_and_clean_data to_numeric fs path = Ok df ->
  StronglySorted lt (map fst df) /\
  (forall i, In i (map fst df) -> i < length plants) /\
  length df = length (List.filter (locatable to_numeric) plants) /\
  length df <= length plants.
Proof.
  intros Hfs Hload. pose proof (load_ok_rows _ _ _ _ _ Hfs Hload) as Hrows.
  pose proof (cleaned_labels_sorted _ _ _ _ _ Hfs Hload) as Hsorted.
  rewrite (load_unfold _ _ _ _ Hfs) in Hload.
  destruct (holds_text _); [|discriminate].
  destruct (Nat.eqb _ 2); [|discriminate]. injection Hload as <-.
  assert (Hlen : length (List.filter has_coordinates
                           (combine (seq 0 (length plants))
                              (map (clean_row to_numeric) plants)))
                 = length (List.filter (locatable to_numeric) plants))
    by apply length_cleaned.
  split; [|split; [|split]].
  - exact Hsorted.
  - intros i Hi. apply in_map_iff in Hi. destruct Hi as ([i' r] & <- & Hin).
    apply Hrows in Hin. destruct Hin as (p & Hnth & _).
    apply nth_error_Some. simpl. congruence.
  - exact Hlen.
  - rewrite Hlen. apply List.filter_length_le.
Qed.

(** The sample: five lines, four rows, labels 0, 1, 3, 4. *)
Lemma cleaned_labels_sample :
  length sample_plants = 5 /\ length sample_df = 4 /\
  map fst sample_df = [0; 1; 3; 4] /\
  StronglySorted lt (map fst sample_df).
Proof.
  split; [reflexivity|]. split; [reflexivity|]. split; [reflexivity|].
  exact (proj1 (cleaned_labels_increase decimal (on_disk sample_plants)
                  DATA_FILE sample_plants sample_df eq_refl sample_loads)).
Defined.

(** ** The shape of a kept coordinate string *)

Lemma split_from_skip (sep a s : string) :
  split_from sep (String.length a) (a ++ s) = split_from sep 0 s.
Proof. induction a as [|c a IH]; simpl; [now destruct s | exact IH]. Qed.

Lemma prefix_app (p s : string) :
  String.prefix p s = true -> exists r, s = p ++ r.
Proof.
  revert s. induction p as [|c p IH]; intros s H.
  - exists s. reflexivity.
  - destruct s as [|d s]; simpl in H; [discriminate|].
    destruct (Ascii.ascii_dec c d) as [->|]; [|discriminate].
    destruct (IH s H) as [r ->]. exists r. reflexivity.
Qed.

Lemma join_cons (sep p : string) (l : list string) :
  l <> [] -> join sep (p :: l) = p ++ sep ++ join sep l.
Proof. destruct l; [congruence | reflexivity]. Qed.

Lemma length_app_string (a b : string) :
  String.length (a ++ b) = String.length a + String.length b.
Proof. induction a as [|c a IH]; simpl; [reflexivity | now rewrite IH]. Qed.

(** Joining the parts with the separator gives the string back. *)
Lemma join_split (sep s : string) :
  sep <> EmptyString -> join sep (str_split sep s) = s.
Proof.
  intros Hsep. unfold str_split.
  remember (String.length s) as n eqn:Hn. revert s Hn.
  induction n as [n IH] using lt_wf_ind. intros s Hn.
  destruct s as [|c s]; [reflexivity|]. cbn [split_from].
  destruct (String.prefix sep (String c s)) eqn:Hp.
  - apply prefix_app in Hp. destruct Hp as [r Hr].
    destruct sep as [|d sep']; [congruence|]. simpl in Hr.
    injection Hr as <- ->. cbn [String.length]. rewrite Nat.sub_1_r. simpl Nat.pred.
    rewrite split_from_skip.
    rewrite join_cons by apply str_split_not_nil.
    rewrite (IH (String.length r)); [reflexivity | | reflexivity].
    subst n. simpl. rewrite length_app_string. lia.
  - pose proof (IH (String.length s)) as IHs. specialize (IHs ltac:(subst n; simpl; lia) s eq_refl).
    destruct (split_from sep 0 s) as [|p ps] eqn:Hsplit.
    + now apply str_split_not_nil in Hsplit.
    + destruct ps as [|p' ps]; [simpl in *; now rewrite IHs|].
      rewrite join_cons in IHs by discriminate.
      rewrite join_cons by discriminate.
      change (String c (p ++ sep ++ join sep (p' :: ps)) = String c s).
      now rewrite IHs.
Qed.

(** X4. The coordinate string of every row of the cleaned frame is a
    latitude text, the separator ", " and a longitude text, with nothing
    else: the two texts are what [to_numeric] turned into the row's [lat]
    and [Longitude], and both are numbers. *)
Theorem kept_coordinates_are_pairs (to_numeric : string -> option Q)
  (fs : filesystem) (path : string) (plants : list plant) (df : frame) :
  fs path = Some plants ->
  load_and_clean_data to_numeric fs path = Ok df ->
  forall i r, In (i, r) df ->
    exists a b x y,
      coordinates (src r) = Some (a ++ ", " ++ b) /\
      str_split ", " (a ++ ", " ++ b) = [a; b] /\
      to_numeric a = Some x /\ to_numeric b = Some y /\
      lat r = Some x /\ Longitude r = Some y.
Proof.
  intros Hfs Hload i r Hin.
  pose proof (load_ok_width _ _ _ _ _ Hfs Hload) as Hw.
  apply (load_ok_rows _ _ _ _ _ Hfs Hload) in Hin.
  destruct Hin as (p & Hnth & -> & Hlat & Hlon). simpl in *.
  apply nth_error_In in Hnth.
  assert (Hle : length (split_cell ", " (coordinates p)) <= 2).
  { apply (proj1 (expand_width_le
                     (map (split_cell ", ") (map coordinates plants)) 2)).
    - unfold coordinate_width in Hw. lia.
    - rewrite map_map. apply (in_map (fun x => split_cell ", " (coordinates x))).
      exact Hnth. }
  unfold coordinate_part, cell_at in Hlat, Hlon.
  destruct (coordinates p) as [s|] eqn:Hs; [|now contradiction Hlon].
  simpl in Hle, Hlat, Hlon. rewrite length_map in Hle.
  pose proof (join_split ", " s ltac:(discriminate)) as Hjoin.
  destruct (str_split ", " s) as [|a [|b [|c rest]]] eqn:Hsplit;
    simpl in Hle, Hlat, Hlon; try (now contradiction Hlon); [|lia].
  simpl in Hjoin. subst s.
  destruct (to_numeric a) as [x|] eqn:Ha; [|now contradiction Hlat].
  destruct (to_numeric b) as [y|] eqn:Hb; [|now contradiction Hlon].
  exists a, b, x, y. unfold coordinate_part, cell_at. rewrite Hs. simpl.
  rewrite Hsplit. simpl. rewrite Ha, Hb. repeat split; reflexivity.
Qed.

(** Row 0 of the sample: "36.7539610" and "6.2444200" around ", ". *)
Lemma kept_coordinates_sample :
  exists a b x y,
    coordinates (src (sample_row 0)) = Some (a ++ ", " ++ b) /\
    str_split ", " (a ++ ", " ++ b) = [a; b] /\
    decimal a = Some x /\ decimal b = Some y /\
    lat (sample_row 0) = Some x /\ Longitude (sample_row 0) = Some y.
Proof.
  apply (kept_coordinates_are_pairs decimal (on_disk sample_plants) DATA_FILE
           sample_plants sample_df eq_refl sample_loads 0).
  vm_compute. tauto.
Defined.

(** ** How the filters compose *)

Lemma filter_true {A : Type} (l : list A) : List.filter (fun _ => true) l = l.
Proof. induction l as [|x l IH]; simpl; [reflexivity | now rewrite IH]. Qed.

Lemma filter_and {A : Type} (f g : A -> bool) (l : list A) :
  List.filter f (List.filter g l) = List.filter (fun x => g x && f x) l.
Proof.
  induction l as [|x l IH]; simpl; [reflexivity|].
  destruct (g x); simpl; [destruct (f x)|]; now rewrite IH.
Qed.

Lemma filter_isin_mask (col : plant -> string) (selected : list string)
  (df : frame) :
  filter_isin col selected df =
  List.filter (fun ir => match selected with
                         | [] => true
                         | _ :: _ => isin selected (col (src (snd ir)))
                         end) df.
Proof. destruct selected; simpl; [now rewrite filter_true | reflexivity]. Qed.

Lemma apply_filters_one_pass (companies countries : list string)
  (capacity_range : Q * Q) (df : frame) :
  apply_filters companies countries capacity_range df =
  List.filter (fun ir => passes companies countries capacity_range (snd ir)) df.
Proof.
  unfold apply_filters, filter_capacity. rewrite !filter_isin_mask, !filter_and.
  apply filter_ext. intros [i r]. unfold passes. simpl. apply andb_assoc.
Qed.


(** X6. Filtering is idempotent: applying the same selections to the
    filtered frame changes nothing. *)
Theorem apply_filters_idempotent (companies countries : list string)
  (capacity_range : Q * Q) (df : frame) :
  apply_filters companies countries capacity_range
    (apply_filters companies countries capacity_range df)
  = apply_filters companies countries capacity_range df.
Proof.
  rewrite !apply_filters_one_pass, filter_and. apply filter_ext.
  intros [i r]. apply andb_diag.
Qed.

Lemma filter_sublist {A : Type} (f : A -> bool) (l : list A) :
  sublist (List.filter f l) l.
Proof.
  induction l as [|x l IH]; simpl; [constructor|].
  destruct (f x); now constructor.
Qed.

Lemma filter_sublist_weaker {A : Type} (f g : A -> bool) (l : list A) :
  (forall x, In x l -> f x = true -> g x = true) ->
  sublist (List.filter f l) (List.filter g l).
Proof.
  induction l as [|x l IH]; simpl; intros H; [constructor|].
  assert (IH' : sublist (List.filter f l) (List.filter g l)) by (apply IH; auto).
  destruct (f x) eqn:Hf.
  - rewrite (H x) by auto. now constructor.
  - destruct (g x); [now constructor | exact IH'].
Qed.

(** X7. The filtered frame is a part of the cleaned frame, in the same
    order and under the same labels: its labels still increase strictly;
    each of its rows still carries the line of the file with its label and
    still has both coordinates. *)
Theorem filtered_is_part_of_cleaned (to_numeric : string -> option Q)
  (fs : filesystem) (path : string) (plants : list plant) (df : frame)
  (companies countries : list string) (capacity_range : Q * Q) :
  fs path = Some plants ->
  load_and_clean_data to_numeric fs path = Ok df ->
  sublist (apply_filters companies countries capacity_range df) df /\
  StronglySorted lt
    (map fst (apply_filters companies countries capacity_range df)) /\
  (forall i r,
     In (i, r) (apply_filters companies countries capacity_range df) ->
     nth_error plants i = Some (src r) /\ lat r <> nan /\ Longitude r <> nan).
Proof.
  intros Hfs Hload. rewrite apply_filters_one_pass. split; [|split].
  - apply filter_sublist.
  - apply filter_keeps_increasing.
    exact (cleaned_labels_sorted _ _ _ _ _ Hfs Hload).
  - intros i r Hin. apply filter_In in Hin. destruct Hin as [Hin _].
    apply (load_ok_rows _ _ _ _ _ Hfs Hload) in Hin.
    destruct Hin as (p & Hnth & -> & Hc). simpl. auto.
Qed.

(** The sample filtered to the owner "Sider": rows 0 and 4 of the four. *)
Lemma filtered_sample :
  map fst (apply_filters ["Sider"] [] (0, 10)%Q sample_df) = [0; 4] /\
  sublist (apply_filters ["Sider"] [] (0, 10)%Q sample_df) sample_df /\
  (forall i r, In (i, r) (apply_filters ["Sider"] [] (0, 10)%Q sample_df) ->
               nth_error sample_plants i = Some (src r) /\
               lat r <> nan /\ Longitude r <> nan).
Proof.
  destruct (filtered_is_part_of_cleaned decimal (on_disk sample_plants)
              DATA_FILE sample_plants sample_df ["Sider"] [] (0, 10)%Q
              eq_refl sample_loads) as (Hsub & _ & Hrows).
  split; [reflexivity|]. split; [exact Hsub | exact Hrows].
Defined.

(** X8. A wider capacity range keeps every row a narrower one keeps, and a
    larger selection keeps every row a smaller one keeps, as long as the
    smaller one is not empty; the empty selection keeps every row any
    selection keeps. *)
Theorem wider_filter_keeps_more (col : plant -> string) (df : frame) :
  (forall lo hi lo' hi' : Q,
     (lo' <= lo)%Q -> (hi <= hi')%Q ->
     sublist (filter_capacity (lo, hi) df) (filter_capacity (lo', hi') df)) /\
  (forall selected selected' : list string,
     selected <> [] -> incl selected selected' ->
     sublist (filter_isin col selected df) (filter_isin col selected' df)) /\
  (forall selected : list string,
     sublist (filter_isin col selected df) (filter_isin col [] df)).
Proof.
  split; [|split].
  - intros lo hi lo' hi' Hlo Hhi. unfold filter_capacity.
    apply filter_sublist_weaker. intros [i r] _. simpl.
    rewrite !capacity_mask_iff. intros [H | (c & Hc & H1 & H2)]; [auto|].
    right. exists c. split; [exact Hc|]. split; lra.
  - intros selected selected' Hne Hincl. rewrite !filter_isin_mask.
    apply filter_sublist_weaker. intros [i r] _. simpl.
    destruct selected as [|x selected]; [congruence|].
    rewrite isin_iff. intros Hin. apply Hincl in Hin.
    destruct selected' as [|y selected']; [reflexivity|]. now apply isin_iff.
  - intros selected. rewrite !filter_isin_mask. rewrite filter_true.
    apply filter_sublist.
Qed.

(** On the sample: the range 1 to 2 inside the range 0 to 10, the owner
    "Sider" inside the owners "Sider" and "Usiminas". *)
Lemma wider_filter_sample :
  sublist (filter_capacity (1, 2)%Q sample_df) (filter_capacity (0, 10)%Q sample_df) /\
  map fst (filter_capacity (1, 2)%Q sample_df) = [0; 1] /\
  sublist (filter_isin owner ["Sider"] sample_df)
    (filter_isin owner ["Sider"; "Usiminas"] sample_df) /\
  map fst (filter_isin owner ["Sider"; "Usiminas"] sample_df) = [0; 3; 4].
Proof.
  destruct (wider_filter_keeps_more owner sample_df) as (Hrange & Hsel & _).
  split; [apply Hrange; vm_compute; discriminate|]. split; [reflexivity|].
  split; [|reflexivity]. apply Hsel; [discriminate|].
  intros x [<- | []]. left. reflexivity.
Defined.

(** ** What the map shows *)

Lemma length_map_data (l : frame) :
  (forall i r, In (i, r) l -> lat r <> nan /\ Longitude r <> nan) ->
  length (map_data l) = length (non_null_capacities l).
Proof.
  unfold map_data, non_null_capacities.
  induction l as [|[i r] l IH]; intros Hc; [reflexivity|].
  cbn [List.filter flat_map]. unfold plottable at 1. cbn [snd].
  destruct (Hc i r (or_introl eq_refl)) as [Hlat Hlon].
  apply notna_iff in Hlat, Hlon. rewrite Hlat, Hlon.
  assert (IH' : forall i' r', In (i', r') l -> lat r' <> nan /\ Longitude r' <> nan)
    by (intros i' r' Hin; apply (Hc i' r'); now right).
  rewrite length_app, <- (IH IH').
  destruct (Capacity_Mtpa r); reflexivity.
Qed.

Lemma warning_iff_nothing_to_plot (has_region : bool) (dff : frame) :
  In (StWarning NOTHING_TO_PLOT)
    (events (kpis dff ;; plant_map has_region dff ;;
             data_table has_region dff ;; footer)) <->
  map_data dff = [].
Proof.
  unfold kpis, plant_map, data_table, footer, events.
  destruct (map_data dff) eqn:Hmd; destruct has_region;
    cbn [bind emit raise ret fst snd app]; split; intros H;
    try reflexivity; try discriminate;
    try (repeat (destruct H as [H | H]; [discriminate|]); now destruct H).
  - do 8 right. left. reflexivity.
  - do 8 right. left. reflexivity.
Qed.

(** X9. On a frame that came out of the loader, the map draws exactly the
    filtered rows that have a capacity, one point each; when the filtered
    frame has rows, the "nothing to plot" warning is shown exactly when none
    of them has a capacity. *)
Theorem map_draws_rows_with_capacity (to_numeric : string -> option Q)
  (fs : filesystem) (path : string) (plants : list plant) (df : frame)
  (has_region : bool) (companies countries : list string)
  (capacity_range : Q * Q) :
  fs path = Some plants ->
  load_and_clean_data to_numeric fs path = Ok df ->
  map_data (apply_filters companies countries capacity_range df)
  = List.filter (fun ir => notna (Capacity_Mtpa (snd ir)))
      (apply_filters companies countries capacity_range df) /\
  length (styled (apply_filters companies countries capacity_range df))
  = length (non_null_capacities
              (apply_filters companies countries capacity_range df)) /\
  (apply_filters companies countries capacity_range df <> [] ->
   (In (StWarning NOTHING_TO_PLOT)
      (events (render has_region df companies countries capacity_range)) <->
    non_null_capacities (apply_filters companies countries capacity_range df)
    = [])).
Proof.
  intros Hfs Hload.
  assert (Hc : forall i r,
             In (i, r) (apply_filters companies countries capacity_range df) ->
             lat r <> nan /\ Longitude r <> nan).
  { intros i r Hin. rewrite apply_filters_one_pass in Hin.
    apply filter_In in Hin. destruct Hin as [Hin _].
    apply (load_ok_rows _ _ _ _ _ Hfs Hload) in Hin.
    destruct Hin as (p & _ & _ & H). exact H. }
  set (dff := apply_filters companies countries capacity_range df) in *.
  pose proof (length_map_data dff Hc) as Hlen.
  split; [|split].
  - unfold map_data. apply filter_ext_in. intros [i r] Hin. unfold plottable.
    destruct (Hc i r Hin) as [Hlat Hlon]. apply notna_iff in Hlat, Hlon.
    simpl. now rewrite Hlat, Hlon.
  - unfold styled. now rewrite length_map.
  - intros Hne. unfold render. fold dff.
    destruct dff as [|ir dff'] eqn:Hdff; [congruence|]. rewrite <- Hdff in *.
    rewrite warning_iff_nothing_to_plot.
    split; intros H.
    + rewrite H in Hlen. simpl in Hlen.
      destruct (non_null_capacities dff); [reflexivity | discriminate].
    + rewrite H in Hlen. simpl in Hlen.
      destruct (map_data dff); [reflexivity | discriminate].
Qed.

(** The sample: of the four rows, the three with a capacity are drawn;
    filtered to the owner "ArcelorMittal", whose plant has no capacity,
    the warning is shown. *)
Lemma map_draws_sample :
  map fst (styled (apply_filters [] [] (0, 10)%Q sample_df)) = [0; 3; 4] /\
  length (styled (apply_filters [] [] (0, 10)%Q sample_df))
  = length (non_null_capacities (apply_filters [] [] (0, 10)%Q sample_df)) /\
  In (StWarning NOTHING_TO_PLOT)
    (events (render true sample_df ["ArcelorMittal"] [] (0, 10)%Q)).
Proof.
  split; [reflexivity|]. split.
  - exact (proj1 (proj2 (map_draws_rows_with_capacity decimal
                           (on_disk sample_plants) DATA_FILE sample_plants
                           sample_df true [] [] (0, 10)%Q eq_refl sample_loads))).
  - apply (proj2 (proj2 (map_draws_rows_with_capacity decimal
                           (on_disk sample_plants) DATA_FILE sample_plants
                           sample_df true ["ArcelorMittal"] [] (0, 10)%Q
                           eq_refl sample_loads))).
    + vm_compute. discriminate.
    + reflexivity.
Defined.

Lemma clip_cases (lo hi x : Q) :
  (lo <= hi)%Q ->
  (lo <= clip lo hi x)%Q /\ (clip lo hi x <= hi)%Q /\
  ((x <= lo)%Q -> (clip lo hi x == lo)%Q) /\
  ((hi <= x)%Q -> (clip lo hi x == hi)%Q) /\
  ((lo <= x)%Q -> (x <= hi)%Q -> (clip lo hi x == x)%Q).
Proof.
  intros Hle. unfold clip.
  destruct (Qle_bool x hi) eqn:Hhi; destruct (Qle_bool lo x) eqn:Hlo;
    rewrite ?Qle_bool_iff, ?Qle_bool_false in *;
    repeat split; intros; lra.
Qed.

(** X10. The radius of a point is never below 5000 nor above 80000; it is
    5000 up to a capacity of 0.25 Mtpa, 80000 from a capacity of 4 Mtpa on,
    and 20000 times the capacity in between; a larger capacity never gives
    a smaller radius. *)
Theorem marker_radius_bounds (c : Q) :
  exists r,
    marker_radius (Some c) = Some r /\
    (5000 <= r)%Q /\ (r <= 80000)%Q /\
    ((c <= 1 # 4)%Q -> (r == 5000)%Q) /\
    ((4 <= c)%Q -> (r == 80000)%Q) /\
    ((1 # 4 <= c)%Q -> (c <= 4)%Q -> (r == c * 20000)%Q) /\
    (forall c' r', (c <= c')%Q -> marker_radius (Some c') = Some r' ->
                   (r <= r')%Q).
Proof.
  eexists. split; [reflexivity|].
  destruct (clip_cases 5000 80000 (c * 20000) ltac:(discriminate))
    as (H1 & H2 & H3 & H4 & H5).
  split; [exact H1|]. split; [exact H2|].
  split; [intros H; apply H3; lra|].
  split; [intros H; apply H4; lra|].
  split; [intros Ha Hb; apply H5; lra|].
  intros c' r' Hcc Hr'. injection Hr' as <-. unfold clip.
  destruct (Qle_bool (c * 20000) 80000) eqn:E1;
    destruct (Qle_bool 5000 (c * 20000)) eqn:E2;
    destruct (Qle_bool (c' * 20000) 80000) eqn:E3;
    destruct (Qle_bool 5000 (c' * 20000)) eqn:E4;
    rewrite ?Qle_bool_iff, ?Qle_bool_false in *; lra.
Qed.

(** A plant of 2 Mtpa has radius 40000, no larger than that of a plant of
    3 Mtpa. *)
Lemma marker_radius_bounds_sample :
  exists r, marker_radius (Some 2%Q) = Some r /\ (r == 2 * 20000)%Q /\
            (r <= 3 * 20000)%Q.
Proof.
  destruct (marker_radius_bounds 2) as (r & Hr & _ & _ & _ & _ & Hlin & Hmono).
  exists r. split; [exact Hr|]. split.
  - apply Hlin; vm_compute; discriminate.
  - apply (Hmono 3%Q (3 * 20000)%Q); [vm_compute; discriminate | reflexivity].
Defined.

(** X11. Whatever the region, the colour of a point has four components:
    red, green and blue between 0 and 255, and the alpha 160. *)
Theorem marker_color_is_rgba (reg : option string) :
  exists r g b : Z,
    marker_color reg = [r; g; b; 160%Z] /\
    (0 <= r <= 255)%Z /\ (0 <= g <= 255)%Z /\ (0 <= b <= 255)%Z.
Proof.
  unfold marker_color, series_map, list_or_gray.
  destruct reg as [s|]; [|exists 128%Z, 128%Z, 128%Z; repeat split; lia].
  destruct (region_colors !! s) as [c|] eqn:Hc;
    [|exists 128%Z, 128%Z, 128%Z; repeat split; lia].
  apply elem_of_list_to_map_2 in Hc. apply list_elem_of_In in Hc. simpl in Hc.
  repeat (destruct Hc as [Hc | Hc];
          [injection Hc as _ <-; do 3 eexists; split; [reflexivity | lia]|]).
  destruct Hc.
Qed.

(** ** The sidebar *)

Lemma filter_capacity_all_null (capacity_range : Q * Q) (df : frame) :
  non_null_capacities df = [] -> filter_capacity capacity_range df = df.
Proof.
  unfold filter_capacity, non_null_capacities.
  induction df as [|[i r] df IH]; simpl; intros H; [reflexivity|].
  unfold capacity_mask at 1.
  destruct (Capacity_Mtpa r); [discriminate|]. simpl in *. now rewrite IH.
Qed.

(** X12. When no row of the frame has a capacity, the sidebar shows the
    "no valid capacity data" warning instead of the slider and the range is
    (0, 0); the capacity filter is then without effect, whatever the range.
    When some row has a capacity, the range is the slider's value and no
    such warning is shown. *)
Theorem no_capacity_disables_range (df : frame) (ui : inputs) :
  (non_null_capacities df = [] ->
   outcome (sidebar df ui) = inr (0%Q, 0%Q) /\
   In (SidebarWarning "No valid capacity data available.")
     (events (sidebar df ui)) /\
   (forall label a b, ~ In (SidebarSlider label a b) (events (sidebar df ui))) /\
   (forall capacity_range, filter_capacity capacity_range df = df)) /\
  (non_null_capacities df <> [] ->
   outcome (sidebar df ui) = inr (slider_value ui) /\
   (exists a b, In (SidebarSlider "Crude Steel Capacity Range (Mtpa)" a b)
                  (events (sidebar df ui))) /\
   (forall msg, ~ In (SidebarWarning msg) (events (sidebar df ui)))).
Proof.
  unfold sidebar, events, outcome. rewrite dropna_capacity_column. split.
  - intros Hnull. rewrite Hnull. cbn [bind emit ret fst snd app].
    split; [reflexivity|]. split; [do 3 right; left; reflexivity|]. split.
    + intros label a b H.
      repeat (destruct H as [H | H]; [discriminate|]). destruct H.
    + intros capacity_range. now apply filter_capacity_all_null.
  - intros Hsome. destruct (non_null_capacities df) as [|q rest]; [congruence|].
    cbn [bind emit ret fst snd app]. split; [reflexivity|]. split.
    + do 2 eexists. do 3 right. left. reflexivity.
    + intros msg H.
      repeat (destruct H as [H | H]; [discriminate|]). destruct H.
Qed.

(** A frame of two plants without capacity, and the sample. *)
Lemma no_capacity_sample :
  outcome (sidebar (List.filter (fun ir => isnull (Capacity_Mtpa (snd ir))) sample_df)
             (mkInputs [] [] (1, 2)%Q)) = inr (0%Q, 0%Q) /\
  outcome (sidebar sample_df (mkInputs [] [] (1, 2)%Q)) = inr (1%Q, 2%Q).
Proof.
  split.
  - apply (proj1 (no_capacity_disables_range _ _)). reflexivity.
  - apply (proj2 (no_capacity_disables_range sample_df (mkInputs [] [] (1, 2)%Q))).
    vm_compute. discriminate.
Defined.

Lemma rint_mono (x y : Q) : (x <= y)%Q -> (rint x <= rint y)%Z.
Proof.
  intros Hxy. pose proof (Qfloor_resp_le x y Hxy) as Hf.
  pose proof (Qfloor_le x) as Hx1. pose proof (Qlt_floor x) as Hx2.
  pose proof (Qfloor_le y) as Hy1. pose proof (Qlt_floor y) as Hy2.
  rewrite inject_Z_plus in Hx2, Hy2. change (inject_Z 1) with 1%Q in Hx2, Hy2.
  unfold rint. destruct (Z.eq_dec (Qfloor x) (Qfloor y)) as [E | N].
  - rewrite E in *.
    destruct (Qcompare_spec (x - inject_Z (Qfloor y)) (1 # 2));
      destruct (Qcompare_spec (y - inject_Z (Qfloor y)) (1 # 2));
      destruct (Z.even (Qfloor y)); try lia; exfalso; lra.
  - destruct (Qcompare_spec (x - inject_Z (Qfloor x)) (1 # 2));
      destruct (Qcompare_spec (y - inject_Z (Qfloor y)) (1 # 2));
      destruct (Z.even (Qfloor x)); destruct (Z.even (Qfloor y)); lia.
Qed.

Lemma round2_mono (x y : Q) : (x <= y)%Q -> (round2 x <= round2 y)%Q.
Proof.
  intros Hxy. unfold round2.
  assert (H : (inject_Z (rint (x * 100)) <= inject_Z (rint (y * 100)))%Q).
  { rewrite <- Zle_Qle. apply rint_mono. lra. }
  set (a := inject_Z (rint (x * 100))) in *.
  set (b := inject_Z (rint (y * 100))) in *.
  change (a / 100)%Q with (a * (1 # 100))%Q.
  change (b / 100)%Q with (b * (1 # 100))%Q. lra.
Qed.

Lemma Qmin_cases (x y : Q) : Qmin x y = x \/ Qmin x y = y.
Proof.
  unfold Qmin, GenericMinMax.gmin. destruct (x ?= y)%Q; auto.
Qed.

Lemma Qmax_cases (x y : Q) : Qmax x y = x \/ Qmax x y = y.
Proof.
  unfold Qmax, GenericMinMax.gmax. destruct (x ?= y)%Q; auto.
Qed.

Lemma Qlist_min_spec (q : Q) (l : list Q) :
  In (Qlist_min q l) (q :: l) /\
  forall c, In c (q :: l) -> (Qlist_min q l <= c)%Q.
Proof.
  unfold Qlist_min. revert q. induction l as [|x l IH]; intros q; simpl.
  - split; [auto|]. intros c [<- | []]. apply Qle_refl.
  - destruct (IH (Qmin q x)) as [Hin Hle]. split.
    + destruct Hin as [Hin | Hin]; [|right; right; exact Hin].
      destruct (Qmin_cases q x) as [E | E]; [left | right; left];
        (etransitivity; [symmetry; exact E | exact Hin]).
    + pose proof (Hle (Qmin q x) (or_introl eq_refl)) as H0.
      pose proof (Q.le_min_l q x). pose proof (Q.le_min_r q x).
      intros c [<- | [<- | Hc]]; [lra | lra |]. apply Hle. now right.
Qed.

Lemma Qlist_max_spec (q : Q) (l : list Q) :
  In (Qlist_max q l) (q :: l) /\
  forall c, In c (q :: l) -> (c <= Qlist_max q l)%Q.
Proof.
  unfold Qlist_max. revert q. induction l as [|x l IH]; intros q; simpl.
  - split; [auto|]. intros c [<- | []]. apply Qle_refl.
  - destruct (IH (Qmax q x)) as [Hin Hle]. split.
    + destruct Hin as [Hin | Hin]; [|right; right; exact Hin].
      destruct (Qmax_cases q x) as [E | E]; [left | right; left];
        (etransitivity; [symmetry; exact E | exact Hin]).
    + pose proof (Hle (Qmax q x) (or_introl eq_refl)) as H0.
      pose proof (Q.le_max_l q x). pose proof (Q.le_max_r q x).
      intros c [<- | [<- | Hc]]; [lra | lra |]. apply Hle. now right.
Qed.

(** X13. The bounds of the capacity slider are the least and the greatest
    capacity of the frame, each rounded to two decimals, and the lower
    bound is never above the upper one. *)
Theorem slider_bounds (df : frame) (ui : inputs) (label : string) (a b : Q) :
  In (SidebarSlider label a b) (events (sidebar df ui)) ->
  exists lo hi,
    In lo (non_null_capacities df) /\ In hi (non_null_capacities df) /\
    (forall c, In c (non_null_capacities df) -> (lo <= c)%Q /\ (c <= hi)%Q) /\
    a = round2 lo /\ b = round2 hi /\ (a <= b)%Q /\
    rounded_to_2_decimals lo a /\ rounded_to_2_decimals hi b.
Proof.
  unfold sidebar, events. rewrite dropna_capacity_column.
  destruct (non_null_capacities df) as [|q rest];
    cbn [bind emit ret fst snd app]; intros H;
    repeat (destruct H as [H | H]; [try discriminate|]); try now destruct H.
  injection H as _ <- <-.
  destruct (Qlist_min_spec q rest) as [Hmin_in Hmin].
  destruct (Qlist_max_spec q rest) as [Hmax_in Hmax].
  exists (Qlist_min q rest), (Qlist_max q rest).
  split; [exact Hmin_in|]. split; [exact Hmax_in|]. split; [auto|].
  split; [reflexivity|]. split; [reflexivity|]. split.
  - apply round2_mono. apply Hmin. exact Hmax_in.
  - split; apply round2_rounds.
Qed.

(** The slider of the sample runs from 0.00 to 10.00: its least capacity,
    0.0001, rounds down to 0. *)
Lemma slider_bounds_sample :
  In (SidebarSlider "Crude Steel Capacity Range (Mtpa)"
        (round2 (0.1 / 1000)) (round2 (10000 / 1000)))
    (events (sidebar sample_df (mkInputs [] [] (0, 10)%Q))) /\
  (round2 (0.1 / 1000) == 0)%Q /\ (round2 (10000 / 1000) == 10)%Q /\
  (round2 (0.1 / 1000) <= round2 (10000 / 1000))%Q.
Proof.
  assert (Hin : In (SidebarSlider "Crude Steel Capacity Range (Mtpa)"
                      (round2 (0.1 / 1000)) (round2 (10000 / 1000)))
                  (events (sidebar sample_df (mkInputs [] [] (0, 10)%Q))))
    by (do 3 right; left; reflexivity).
  split; [exact Hin|]. split; [reflexivity|]. split; [reflexivity|].
  destruct (slider_bounds _ _ _ _ _ Hin) as (lo & hi & _ & _ & _ & _ & _ & H & _).
  exact H.
Defined.

Lemma in_insert_sorted (x a : string) (l : list string) :
  In x (insert_sorted a l) <-> x = a \/ In x l.
Proof.
  induction l as [|y l IH]; simpl; [intuition|].
  destruct (String.leb a y); simpl; [intuition|]. rewrite IH. intuition.
Qed.

Lemma HdRel_insert_sorted (y x : string) (l : list string) :
  str_le y x -> HdRel str_le y l -> HdRel str_le y (insert_sorted x l).
Proof.
  intros Hyx Hl. destruct l as [|z l]; simpl; [now constructor|].
  destruct (String.leb x z); constructor; [exact Hyx|]. now inversion Hl.
Qed.

Lemma Sorted_insert_sorted (x : string) (l : list string) :
  Sorted str_le l -> Sorted str_le (insert_sorted x l).
Proof.
  induction l as [|y l IH]; simpl; intros Hs; [repeat constructor|].
  destruct (String.leb x y) eqn:Hxy.
  - constructor; [exact Hs | now constructor].
  - apply Sorted_inv in Hs. destruct Hs as [Hs Hhd]. constructor; [auto|].
    apply HdRel_insert_sorted; [|exact Hhd].
    destruct (String.leb_total x y) as [H | H]; [congruence | exact H].
Qed.

Lemma NoDup_insert_sorted (x : string) (l : list string) :
  ~ In x l -> List.NoDup l -> List.NoDup (insert_sorted x l).
Proof.
  induction l as [|y l IH]; simpl; intros Hx Hl; [repeat constructor; auto|].
  destruct (String.leb x y); [now constructor|].
  apply List.NoDup_cons_iff in Hl. destruct Hl as [Hy Hl].
  constructor; [|apply IH; tauto].
  rewrite in_insert_sorted. intros [-> | H]; tauto.
Qed.

Lemma sorted_spec (l : list string) :
  Sorted str_le (sorted l) /\
  (forall x, In x (sorted l) <-> In x l) /\
  (List.NoDup l -> List.NoDup (sorted l)) /\
  length (sorted l) = length l.
Proof.
  unfold sorted. induction l as [|a l (Hs & Hin & Hnd & Hlen)]; simpl.
  - repeat split; auto; constructor.
  - split; [now apply Sorted_insert_sorted|]. split; [|split].
    + intros x. rewrite in_insert_sorted, Hin. intuition.
    + intros H. apply List.NoDup_cons_iff in H. destruct H as [Ha Hl].
      apply NoDup_insert_sorted; [now rewrite Hin | auto].
    + rewrite <- Hlen. clear. induction (fold_right insert_sorted [] l) as [|y m IH];
        simpl; [reflexivity|]. destruct (String.leb a y); simpl; [reflexivity|].
      now rewrite IH.
Qed.

(** X14. The options of the two multiselects are in ascending order and
    without repetition; those of the company widget are exactly the owners
    that occur in the frame, those of the country widget exactly its
    countries.  The default of the company widget is the first ten options
    (all of them when there are fewer), that of the country widget all the
    options. *)
Theorem multiselect_options (df : frame) (ui : inputs) (label : string)
  (options default : list string) :
  In (SidebarMultiselect label options default) (events (sidebar df ui)) ->
  Sorted str_le options /\ List.NoDup options /\
  length default <= length options /\
  ((label = "Select Company (Owner)" /\
    (forall x, In x options <-> exists i r, In (i, r) df /\ owner (src r) = x) /\
    default = firstn 10 options /\ length default <= 10) \/
   (label = "Select Country (Country/Area_x)" /\
    (forall x, In x options <->
               exists i r, In (i, r) df /\ country (src r) = x) /\
    default = options)).
Proof.
  unfold sidebar, events.
  assert (Hopt : forall col : plant -> string,
             let o := sorted (unique (map (fun ir => col (src (snd ir))) df)) in
             Sorted str_le o /\ List.NoDup o /\
             forall x, In x o <-> exists i r, In (i, r) df /\ col (src r) = x).
  { intros col o. subst o.
    destruct (sorted_spec (unique (map (fun ir => col (src (snd ir))) df)))
      as (Hs & Hin & Hnd & _).
    split; [exact Hs|]. split; [apply Hnd, NoDup_unique|].
    intros x. rewrite Hin, in_unique, in_map_iff. split.
    - intros ([i r] & Hc & Hir). exists i, r. auto.
    - intros (i & r & Hir & Hc). exists (i, r). auto. }
  destruct (dropna (capacity_column df));
    cbn [bind emit ret fst snd app]; intros H;
    repeat (destruct H as [H | H]; [try discriminate|]); try now destruct H.
  all: injection H as <- <- <-.
  all: try (destruct (Hopt owner) as (Hs & Hnd & Hin);
            split; [exact Hs|]; split; [exact Hnd|];
            split; [rewrite length_firstn; lia|]; left;
            split; [reflexivity|]; split; [exact Hin|];
            split; [reflexivity|]; rewrite length_firstn; lia).
  all: destruct (Hopt country) as (Hs & Hnd & Hin);
       split; [exact Hs|]; split; [exact Hnd|]; split; [lia|]; right;
       split; [reflexivity|]; split; [exact Hin|]; reflexivity.
Qed.

(** The owners of the sample, sorted; the countries, sorted. *)
Lemma multiselect_options_sample :
  In (SidebarMultiselect "Select Company (Owner)"
        ["ArcelorMittal"; "Sider"; "Usiminas"]
        ["ArcelorMittal"; "Sider"; "Usiminas"])
    (events (sidebar sample_df (mkInputs [] [] (0, 10)%Q))) /\
  Sorted str_le ["ArcelorMittal"; "Sider"; "Usiminas"] /\
  List.NoDup ["ArcelorMittal"; "Sider"; "Usiminas"].
Proof.
  assert (Hin : In (SidebarMultiselect "Select Company (Owner)"
                      ["ArcelorMittal"; "Sider"; "Usiminas"]
                      ["ArcelorMittal"; "Sider"; "Usiminas"])
                  (events (sidebar sample_df (mkInputs [] [] (0, 10)%Q))))
    by (right; left; reflexivity).
  split; [exact Hin|].
  destruct (multiselect_options _ _ _ _ _ Hin) as (Hs & Hnd & _).
  split; [exact Hs | exact Hnd].
Defined.

(** ** The KPIs at the edges *)


(** X15. For a frame with rows of which none has a capacity, the total
    capacity is 0 and the average capacity is NaN, not 0. *)
Theorem kpis_without_capacity (df : frame) :
  df <> [] -> non_null_capacities df = [] ->
  (total_capacity df == 0)%Q /\ avg_capacity df = nan /\
  avg_capacity df <> Some 0%Q.
Proof.
  intros Hne Hnull. split; [|split].
  - unfold total_capacity, series_sum. rewrite dropna_capacity_column, Hnull.
    reflexivity.
  - now apply avg_capacity_all_null.
  - rewrite (avg_capacity_all_null df Hne Hnull). discriminate.
Qed.

(** The sample filtered to the owner "ArcelorMittal": one plant, of
    unknown capacity. *)
Lemma kpis_without_capacity_sample :
  total_plants (apply_filters ["ArcelorMittal"] [] (0, 10)%Q sample_df) = 1 /\
  (total_capacity (apply_filters ["ArcelorMittal"] [] (0, 10)%Q sample_df) == 0)%Q /\
  avg_capacity (apply_filters ["ArcelorMittal"] [] (0, 10)%Q sample_df) = nan.
Proof.
  split; [reflexivity|].
  destruct (kpis_without_capacity
              (apply_filters ["ArcelorMittal"] [] (0, 10)%Q sample_df))
    as (Ht & Ha & _); [vm_compute; discriminate | reflexivity |].
  split; [exact Ht | exact Ha].
Defined.



(** ** The run after the filters *)

Lemma render_nonempty (has_region : bool) (df : frame)
  (companies countries : list string) (capacity_range : Q * Q) :
  apply_filters companies countries capacity_range df <> [] ->
  render has_region df companies countries capacity_range
  = (kpis (apply_filters companies countries capacity_range df) ;;
     plant_map has_region (apply_filters companies countries capacity_range df) ;;
     data_table has_region (apply_filters companies countries capacity_range df) ;;
     footer).
Proof.
  intros Hne. unfold render.
  destruct (apply_filters companies countries capacity_range df);
    [congruence | reflexivity].
Qed.



(** X18. Without the 'Region' column a run that gets past the filters
    never reaches its end: it shows the four metrics and then ends with
    an exception, [AttributeError] in the map block when there is a row to
    plot, [KeyError] in the table block when there is none.  No chart and
    no table is shown. *)
Theorem run_without_region (df : frame) (companies countries : list string)
  (capacity_range : Q * Q) :
  apply_filters companies countries capacity_range df <> [] ->
  (map_data (apply_filters companies countries capacity_range df) <> [] ->
   outcome (render false df companies countries capacity_range)
   = inl (Uncaught (AttributeError "'str' object has no attribute 'map'"))) /\
  (map_data (apply_filters companies countries capacity_range df) = [] ->
   outcome (render false df companies countries capacity_range)
   = inl (Uncaught (KeyError "['Region'] not in index"))) /\
  In (StMetric "Total Plants (Filtered)"
        (Count (total_plants (apply_filters companies countries capacity_range df))))
    (events (render false df companies countries capacity_range)) /\
  (forall d, ~ In (StPydeckChart d)
               (events (render false df companies countries capacity_range))) /\
  (forall rows, ~ In (StDataframe rows)
                  (events (render false df companies countries capacity_range))).
Proof.
  intros Hne. rewrite (render_nonempty _ _ _ _ _ Hne).
  set (dff := apply_filters companies countries capacity_range df).
  unfold kpis, plant_map, data_table, footer, events, outcome.
  destruct (map_data dff) eqn:Hmd;
    cbn [bind emit raise ret fst snd app].
  - split; [congruence|]. split; [reflexivity|].
    split; [right; left; reflexivity|]. split.
    + intros d H.
      repeat (destruct H as [H | H]; [try discriminate|]); now destruct H.
    + intros rows H.
      repeat (destruct H as [H | H]; [try discriminate|]); now destruct H.
  - split; [reflexivity|]. split; [discriminate|].
    split; [right; left; reflexivity|]. split.
    + intros d H.
      repeat (destruct H as [H | H]; [try discriminate|]); now destruct H.
    + intros rows H.
      repeat (destruct H as [H | H]; [try discriminate|]); now destruct H.
Qed.

(** The sample read from a file without 'Region': the unfiltered run ends
    in the map block, the run on the plant without capacity in the table
    block. *)
Lemma run_without_region_sample :
  outcome (render false sample_df [] [] (0, 10)%Q)
  = inl (Uncaught (AttributeError "'str' object has no attribute 'map'")) /\
  outcome (render false sample_df ["ArcelorMittal"] [] (0, 10)%Q)
  = inl (Uncaught (KeyError "['Region'] not in index")).
Proof.
  split.
  - apply (proj1 (run_without_region sample_df [] [] (0, 10)%Q
                    ltac:(vm_compute; discriminate))).
    vm_compute. discriminate.
  - apply (proj1 (proj2 (run_without_region sample_df ["ArcelorMittal"] []
                           (0, 10)%Q ltac:(vm_compute; discriminate)))).
    reflexivity.
Defined.

(** ** The initial view of the map *)

Lemma in_dropna (col : list float64) (x : Q) :
  In x (dropna col) <-> In (Some x) col.
Proof.
  induction col as [|[q|] col IH]; simpl; [tauto | |].
  - rewrite IH. split; intros [H | H]; auto; [left; congruence|].
    left. congruence.
  - rewrite IH. split; [auto|]. intros [H | H]; [discriminate | exact H].
Qed.

Lemma Qsum_bounds (l : list Q) (lo hi : Q) :
  (forall x, In x l -> (lo <= x)%Q /\ (x <= hi)%Q) ->
  (inject_Z (Z.of_nat (length l)) * lo <= Qsum l)%Q /\
  (Qsum l <= inject_Z (Z.of_nat (length l)) * hi)%Q.
Proof.
  induction l as [|x l IH]; intros H.
  - change (inject_Z (Z.of_nat (length (@nil Q)))) with 0%Q.
    change (Qsum []) with 0%Q. split; lra.
  - destruct (IH (fun y Hy => H y (or_intror Hy))) as [IH1 IH2].
    destruct (H x (or_introl eq_refl)) as [Hx1 Hx2].
    cbn [length Qsum fold_right]. fold (Qsum l).
    rewrite Nat2Z.inj_succ, <- Z.add_1_r, inject_Z_plus.
    change (inject_Z 1) with 1%Q. split; lra.
Qed.

Lemma Qmean_bounds (l : list Q) (lo hi : Q) :
  l <> [] ->
  (forall x, In x l -> (lo <= x)%Q /\ (x <= hi)%Q) ->
  (lo <= Qmean l)%Q /\ (Qmean l <= hi)%Q.
Proof.
  intros Hne H. destruct (Qsum_bounds l lo hi H) as [H1 H2]. unfold Qmean.
  assert (Hn : (0 < inject_Z (Z.of_nat (length l)))%Q).
  { change 0%Q with (inject_Z 0). rewrite <- Zlt_Qlt.
    destruct l; [congruence | simpl; lia]. }
  split.
  - apply Qle_shift_div_l; [exact Hn | lra].
  - apply Qle_shift_div_r; [exact Hn | lra].
Qed.

Lemma mean_or_zero_bounds (col : list float64) (lo hi : Q) :
  dropna col <> [] ->
  (forall x, In (Some x) col -> (lo <= x)%Q /\ (x <= hi)%Q) ->
  (lo <= mean_or_zero col)%Q /\ (mean_or_zero col <= hi)%Q.
Proof.
  intros Hne H. unfold mean_or_zero, series_mean.
  destruct (dropna col) as [|q rest] eqn:Hd; [congruence|].
  apply (Qmean_bounds (q :: rest)); [discriminate|].
  intros x Hx. apply H. apply in_dropna. now rewrite Hd.
Qed.

(** The chart a run shows, in full. *)
Lemma render_chart_view (has_region : bool) (df : frame)
  (companies countries : list string) (capacity_range : Q * Q) (d : deck) :
  In (StPydeckChart d)
    (events (render has_region df companies countries capacity_range)) ->
  map_data (apply_filters companies countries capacity_range df) <> [] /\
  d = {| layer_data := styled (apply_filters companies countries capacity_range df);
         view_latitude :=
           mean_or_zero (map (fun ir => lat (snd ir))
                           (map_data (apply_filters companies countries
                                        capacity_range df)));
         view_longitude :=
           mean_or_zero (map (fun ir => Longitude (snd ir))
                           (map_data (apply_filters companies countries
                                        capacity_range df))) |}.
Proof.
  unfold render. set (dff := apply_filters _ _ _ _).
  destruct dff as [|ir dff'] eqn:Hdff.
  - simpl. intros [H | []]. discriminate.
  - rewrite <- Hdff. clear Hdff. unfold kpis, plant_map, data_table, footer, events.
    destruct (map_data dff) eqn:Hmd; destruct has_region;
      cbn [bind emit raise ret fst snd app];
      intros H;
      repeat (destruct H as [H | H]; [try discriminate|]);
      try (now destruct H).
    injection H as <-. split; [discriminate | reflexivity].
Qed.

Lemma in_map_data (dff : frame) (i : nat) (r : row) :
  In (i, r) (map_data dff) ->
  In (i, {| point := r;
            radius := marker_radius (Capacity_Mtpa r);
            color := marker_color (region (src r)) |}) (styled dff) /\
  lat r <> nan /\ Longitude r <> nan.
Proof.
  intros Hin. split.
  - unfold styled. apply in_map_iff. exists (i, r). split; [reflexivity | exact Hin].
  - unfold map_data in Hin. apply filter_In in Hin. destruct Hin as [_ Hp].
    unfold plottable in Hp. simpl in Hp. rewrite !andb_true_iff in Hp.
    rewrite <- !notna_iff. tauto.
Qed.

(** X19. A chart is never empty, and its initial view is centred inside
    the bounding box of its points: the view latitude lies between the
    least and the greatest latitude drawn, the view longitude between the
    least and the greatest longitude; the centre (0, 0) written as a
    fallback is never used for want of coordinates. *)
Theorem view_center_in_bounding_box (has_region : bool) (df : frame)
  (companies countries : list string) (capacity_range : Q * Q) (d : deck)
  (south north west east : Q) :
  In (StPydeckChart d)
    (events (render has_region df companies countries capacity_range)) ->
  (forall i m x y, In (i, m) (layer_data d) ->
                   lat (point m) = Some x -> Longitude (point m) = Some y ->
                   (south <= x)%Q /\ (x <= north)%Q /\
                   (west <= y)%Q /\ (y <= east)%Q) ->
  layer_data d <> [] /\
  (forall i m, In (i, m) (layer_data d) ->
               lat (point m) <> nan /\ Longitude (point m) <> nan) /\
  (south <= view_latitude d)%Q /\ (view_latitude d <= north)%Q /\
  (west <= view_longitude d)%Q /\ (view_longitude d <= east)%Q.
Proof.
  intros Hev Hbox. apply render_chart_view in Hev. destruct Hev as [Hne ->].
  set (dff := apply_filters companies countries capacity_range df) in *.
  cbn [layer_data view_latitude view_longitude] in *.
  assert (Hrows : forall i r, In (i, r) (map_data dff) ->
                   exists x y, lat r = Some x /\ Longitude r = Some y /\
                               (south <= x)%Q /\ (x <= north)%Q /\
                               (west <= y)%Q /\ (y <= east)%Q).
  { intros i r Hin. destruct (in_map_data dff i r Hin) as (Hst & Hlat & Hlon).
    destruct (lat r) as [x|] eqn:Ex; [|now contradiction Hlat].
    destruct (Longitude r) as [y|] eqn:Ey; [|now contradiction Hlon].
    exists x, y. split; [reflexivity|]. split; [reflexivity|].
    apply (Hbox i _ x y Hst); assumption. }
  split; [|split].
  - unfold styled. destruct (map_data dff); [congruence | discriminate].
  - intros i m Hin. apply in_styled in Hin. destruct Hin as (r & _ & Hp & ->).
    simpl. unfold plottable in Hp. simpl in Hp. rewrite !andb_true_iff in Hp.
    rewrite <- !notna_iff. tauto.
  - assert (Hlat : (south <= mean_or_zero (map (fun ir => lat (snd ir)) (map_data dff)))%Q
                   /\ (mean_or_zero (map (fun ir => lat (snd ir)) (map_data dff)) <= north)%Q).
    { apply mean_or_zero_bounds.
      - destruct (map_data dff) as [|[i r] rest] eqn:Hmd; [congruence|].
        destruct (Hrows i r (or_introl eq_refl)) as (x & y & Hx & _).
        intros Hnil. assert (Hin : In x (dropna (map (fun ir => lat (snd ir)) ((i, r) :: rest)))).
        { apply in_dropna. left. exact Hx. }
        rewrite Hnil in Hin. destruct Hin.
      - intros x Hx. apply in_map_iff in Hx. destruct Hx as ([i r] & Hx & Hin).
        destruct (Hrows i r Hin) as (x' & y' & Hx' & _ & H1 & H2 & _).
        simpl in Hx. rewrite Hx' in Hx. injection Hx as ->. auto. }
    assert (Hlon : (west <= mean_or_zero (map (fun ir => Longitude (snd ir)) (map_data dff)))%Q
                   /\ (mean_or_zero (map (fun ir => Longitude (snd ir)) (map_data dff)) <= east)%Q).
    { apply mean_or_zero_bounds.
      - destruct (map_data dff) as [|[i r] rest] eqn:Hmd; [congruence|].
        destruct (Hrows i r (or_introl eq_refl)) as (x & y & _ & Hy & _).
        intros Hnil. assert (Hin : In y (dropna (map (fun ir => Longitude (snd ir)) ((i, r) :: rest)))).
        { apply in_dropna. left. exact Hy. }
        rewrite Hnil in Hin. destruct Hin.
      - intros y Hy. apply in_map_iff in Hy. destruct Hy as ([i r] & Hy & Hin).
        destruct (Hrows i r Hin) as (x' & y' & _ & Hy' & _ & _ & H1 & H2).
        simpl in Hy. rewrite Hy' in Hy. injection Hy as ->. auto. }
    tauto.
Qed.

(** The chart of the sample: its points lie between 24 degrees south and
    37 degrees north, 47 degrees west and 139 degrees east, and so does
    the centre of the view. *)
Lemma view_center_sample :
  (-24 <= view_latitude sample_deck)%Q /\ (view_latitude sample_deck <= 37)%Q /\
  (-47 <= view_longitude sample_deck)%Q /\ (view_longitude sample_deck <= 139)%Q.
Proof.
  assert (Hev : In (StPydeckChart sample_deck)
                  (events (render true sample_df [] [] (0, 10)%Q)))
    by (do 8 right; left; reflexivity).
  destruct (view_center_in_bounding_box true sample_df [] [] (0, 10)%Q
              sample_deck (-24) 37 (-47) 139 Hev) as (_ & _ & H).
  - intros i m x y Hin Hx Hy. simpl in Hin.
    destruct Hin as [Hin | [Hin | [Hin | []]]]; injection Hin as <- <-;
      injection Hx as <-; injection Hy as <-;
      repeat split; vm_compute; discriminate.
  - exact H.
Defined.

(** ** The average and the selected range *)

Lemma in_non_null_capacities (l : frame) (c : Q) :
  In c (non_null_capacities l) <->
  exists i r, In (i, r) l /\ Capacity_Mtpa r = Some c.
Proof.
  unfold non_null_capacities. rewrite in_flat_map. split.
  - intros ([i r] & Hin & Hc). simpl in Hc. exists i, r. split; [exact Hin|].
    destruct (Capacity_Mtpa r) as [q|]; [|destruct Hc].
    destruct Hc as [-> | []]. reflexivity.
  - intros (i & r & Hin & Hc). exists (i, r). split; [exact Hin|].
    simpl. rewrite Hc. now left.
Qed.

(** X20. The capacities that survive the filters lie in the selected
    range, and so does the average capacity shown, up to the rounding of
    the bounds to two decimals. *)
Theorem average_within_range (companies countries : list string)
  (lo hi : Q) (df : frame) :
  non_null_capacities (apply_filters companies countries (lo, hi) df) <> [] ->
  (forall c, In c (non_null_capacities
                     (apply_filters companies countries (lo, hi) df)) ->
             (lo <= c)%Q /\ (c <= hi)%Q) /\
  exists avg,
    avg_capacity (apply_filters companies countries (lo, hi) df) = Some avg /\
    (round2 lo <= avg)%Q /\ (avg <= round2 hi)%Q.
Proof.
  intros Hne.
  set (dff := apply_filters companies countries (lo, hi) df) in *.
  assert (Hin : forall c, In c (non_null_capacities dff) ->
                          (lo <= c)%Q /\ (c <= hi)%Q).
  { intros c Hc. apply in_non_null_capacities in Hc.
    destruct Hc as (i & r & Hir & Hcap). unfold dff in Hir.
    rewrite apply_filters_one_pass in Hir. apply filter_In in Hir.
    destruct Hir as [_ Hp]. unfold passes in Hp. simpl in Hp.
    rewrite !andb_true_iff in Hp. destruct Hp as [_ Hmask].
    apply capacity_mask_iff in Hmask.
    destruct Hmask as [Hnan | (c' & Hc' & H)];
      [rewrite Hcap in Hnan; discriminate Hnan|].
    rewrite Hcap in Hc'. injection Hc' as <-. exact H. }
  split; [exact Hin|]. clearbody dff.
  assert (Hpos : Nat.ltb 0 (length dff) = true)
    by (destruct dff; [now contradiction Hne | reflexivity]).
  unfold avg_capacity, total_plants, series_mean.
  rewrite dropna_capacity_column, Hpos.
  destruct (non_null_capacities dff) as [|q l] eqn:Hcaps; [congruence|].
  eexists. split; [reflexivity|].
  destruct (Qmean_bounds (q :: l) lo hi ltac:(discriminate) Hin) as [H1 H2].
  split; apply round2_mono; assumption.
Qed.

(** The sample under the range 1 to 2: one plant of 1.5 Mtpa has a
    capacity, the average is 1.5. *)
Lemma average_within_range_sample :
  exists avg,
    avg_capacity (apply_filters [] [] (1, 2)%Q sample_df) = Some avg /\
    (avg == 1.5)%Q /\ (round2 1 <= avg)%Q /\ (avg <= round2 2)%Q.
Proof.
  destruct (average_within_range [] [] 1 2 sample_df)
    as (_ & avg & Havg & H1 & H2); [vm_compute; discriminate|].
  exists avg. split; [exact Havg|]. split; [|split; assumption].
  vm_compute in Havg. injection Havg as <-. reflexivity.
Defined.

(** ** How a run ends *)




